(** * WebSearchAgent: a shallow embedding of [main.py]

    The development follows the source top to bottom: Python text and the
    values that [response.json()] can produce, the few Python primitives the
    agent applies to them ([dict.get], slicing, [+], iteration, truthiness),
    the two search providers with their [try]/[except] fallbacks, and the
    answer synthesiser [generate_response].

    The network and the generative model are oracles: every statement is
    about all of them, or about the ones named in its hypotheses.  Each
    method runs in a world that holds the agent object and the log of the
    requests sent, so that what a call sends, and what it leaves unchanged,
    can be stated.

    The facade [search_and_answer] and the [while] loop of [main] come
    last; the clock and Python's [str.strip] and [str.lower] are parameters
    there.  The console is taken to be UTF-8.  What [print] writes is not
    part of the model; whether it raises is: the prints of the providers'
    handlers write fixed text and the text of an exception and cannot
    raise, the prints of [search_and_answer], which are outside any [try],
    are modelled by [print].  The loop is observed through the bundles it
    obtains and the requests it sends. *)

From Stdlib Require Import ZArith NArith Ascii String List Floats.SpecFloat.
From stdpp Require Import gmap strings list fin_maps pretty.

Local Open Scope Z_scope.

(** ** Text

    A Python [str] is a sequence of Unicode code points, and [len] and
    slicing count code points; the model keeps that view. *)

Abbreviation text := (list N).

(** An ASCII literal of the source as text. *)
Definition lit (s : string) : text := N_of_ascii <$> list_ascii_of_string s.

(** The line feed written [\n] in the source. *)
Definition LF : N := 10%N.

(** [s.replace(old, new)] for one-character [old] and [new]. *)
Definition replace (old new : N) (s : text) : text :=
  (λ c, if N.eqb c old then new else c) <$> s.

(** [sep.join(parts)]. *)
Fixpoint join (sep : text) (parts : list text) : text :=
  match parts with
  | [] => []
  | [p] => p
  | p :: rest => p ++ sep ++ join sep rest
  end.

(** ** Values

    What [response.json()] returns: [None], booleans, integers, floats,
    text, lists and dictionaries.  A dictionary is given by its items in
    insertion order; a lookup finds the first binding of the key. *)

#[warnings="-register-all"]
Inductive value : Type :=
| VNone
| VBool (b : bool)
| VInt (z : Z)
| VFloat (f : spec_float)
| VStr (s : text)
| VList (l : list value)
| VDict (d : list (text * value)).

(** The dictionaries the agent itself builds (result records and request
    parameters) have literal keys. *)
Abbreviation record := (gmap string value).

(** Python truthiness, as used by [if x:] and [and]. *)
Definition truthy (v : value) : bool :=
  match v with
  | VNone => false
  | VBool b => b
  | VInt z => negb (z =? 0)
  | VFloat (S754_zero _) => false
  | VFloat _ => true
  | VStr s => negb (bool_decide (s = []))
  | VList l => match l with [] => false | _ => true end
  | VDict d => match d with [] => false | _ => true end
  end.

(** Truthiness of an optional credential ([None] or a [str]). *)
Definition configured (c : option text) : bool :=
  match c with
  | Some (_ :: _) => true
  | _ => false
  end.

(** ** Exceptions raised while searching

    Both providers catch every [Exception] and only print it, so the model
    keeps the kind of failure and not its message. *)

Inductive search_exn : Type :=
| RequestException   (* requests.get raised: no response was obtained *)
| HTTPError          (* response.raise_for_status() raised *)
| JSONDecodeError    (* response.json() raised *)
| AttributeError     (* .get on a value that is not a dict *)
| TypeError.         (* slicing, + or iteration on a value of the wrong type *)

#[global] Instance sum_ret {E} : MRet (sum E) := λ _ x, inr x.
#[global] Instance sum_bind {E} : MBind (sum E) := λ _ _ f m,
  match m with
  | inl e => inl e
  | inr x => f x
  end.

(** ** Python primitives on values *)

Fixpoint dict_get (d : list (text * value)) (k : text) : option value :=
  match d with
  | [] => None
  | (k', v) :: rest => if bool_decide (k' = k) then Some v else dict_get rest k
  end.

(** [v.get(k, dflt)]: only a dict has the method. *)
Definition py_get (v : value) (k : string) (dflt : value) : search_exn + value :=
  match v with
  | VDict d => inr (default dflt (dict_get d (lit k)))
  | _ => inl AttributeError
  end.

(** [l[:k]] on a sequence: a negative [k] counts from the end. *)
Definition slice_to {A} (k : Z) (l : list A) : list A :=
  if 0 <=? k then take (Z.to_nat k) l
  else take (length l - Z.to_nat (- k)) l.

(** [v[:k]]: text and lists can be sliced, nothing else can. *)
Definition py_slice_to (k : Z) (v : value) : search_exn + value :=
  match v with
  | VStr s => inr (VStr (slice_to k s))
  | VList l => inr (VList (slice_to k l))
  | _ => inl TypeError
  end.

(** [v + suffix] for a text [suffix]: defined on text only. *)
Definition py_add_str (v : value) (suffix : text) : search_exn + value :=
  match v with
  | VStr s => inr (VStr (s ++ suffix))
  | _ => inl TypeError
  end.

(** The elements a [for] loop over [v] visits: the members of a list, the
    one-character strings of a text, the keys of a dict. *)
Definition py_iter (v : value) : search_exn + list value :=
  match v with
  | VList l => inr l
  | VStr s => inr ((λ c, VStr [c]) <$> s)
  | VDict d => inr ((λ kv, VStr kv.1) <$> d)
  | _ => inl TypeError
  end.

(** ** HTTP

    A request is the URL and the [params] dictionary handed to
    [requests.get].  A response is seen through the two methods the agent
    calls on it. *)

Record request := Request {
  url : text;
  params : record
}.

Record response := Response {
  ok : bool;             (* false when raise_for_status() raises *)
  body : option value    (* None when json() raises *)
}.

Definition raise_for_status (r : response) : search_exn + unit :=
  if ok r then inr tt else inl HTTPError.

Definition json (r : response) : search_exn + value :=
  match body r with
  | Some data => inr data
  | None => inl JSONDecodeError
  end.

(** ** Result records

    The five shapes of dictionary the providers build, each written with the
    keys and in the order of its literal in the source. *)

(** One item of the primary provider's [items] (lines 49-54). *)
Definition google_result (item : value) : search_exn + record :=
  title ← py_get item "title" (VStr []);
  snippet ← py_get item "snippet" (VStr []);
  link ← py_get item "link" (VStr []);
  mret ({[ "title" := title; "snippet" := snippet; "link" := link;
           "source" := VStr (lit "Google") ]} : record).

(** The loop of lines 48-54, [results] being the list built so far. *)
Fixpoint google_loop (items : list value) (results : list record)
  : search_exn + list record :=
  match items with
  | [] => mret results
  | item :: rest =>
      r ← google_result item;
      google_loop rest (results ++ [r])
  end.

(** Lines 45-56: what the primary provider makes of a decoded body. *)
Definition google_results (data : value) : search_exn + list record :=
  items ← py_get data "items" (VList []);
  items ← py_iter items;
  google_loop items [].

(** The abstract-derived record (lines 79-83): no ['source'] key. *)
Definition abstract_result (query : text) (data : value) : search_exn + record :=
  title ← py_get data "Heading" (VStr query);
  abstract ← py_get data "Abstract" (VStr []);
  cut ← py_slice_to 200 abstract;
  snippet ← py_add_str cut (lit "...");
  link ← py_get data "AbstractURL" (VStr []);
  mret ({[ "title" := title; "snippet" := snippet; "link" := link ]} : record).

(** The guard of line 86: [isinstance(topic, dict) and topic.get('Text')]. *)
Definition topic_has_text (topic : value) : bool :=
  match topic with
  | VDict d => truthy (default VNone (dict_get d (lit "Text")))
  | _ => false
  end.

(** One related topic (lines 87-92). *)
Definition topic_result (topic : value) : search_exn + record :=
  text50 ← py_get topic "Text" (VStr []);
  cut50 ← py_slice_to 50 text50;
  title ← py_add_str cut50 (lit "...");
  text200 ← py_get topic "Text" (VStr []);
  cut200 ← py_slice_to 200 text200;
  snippet ← py_add_str cut200 (lit "...");
  link ← py_get topic "FirstURL" (VStr []);
  mret ({[ "title" := title; "snippet" := snippet; "link" := link;
           "source" := VStr (lit "DuckDuckGo") ]} : record).

(** The loop of lines 85-92 over the already sliced topics. *)
Fixpoint topics_loop (topics : list value) (results : list record)
  : search_exn + list record :=
  match topics with
  | [] => mret results
  | topic :: rest =>
      if topic_has_text topic then
        r ← topic_result topic;
        topics_loop rest (results ++ [r])
      else topics_loop rest results
  end.

(** The synthetic record of lines 95-100. *)
Definition placeholder_result (query : text) : record :=
  {[ "title" := VStr (lit "Search results for: " ++ query);
     "snippet" := VStr (lit "Found search query about " ++ query ++
        lit ". More detailed results may require additional search APIs.");
     "link" := VStr (lit "https://api.duckduckgo.com/?q=" ++
        replace 32 43 query);
     "source" := VStr (lit "DuckDuckGo") ]}.

(** The synthetic record of the [except] branch (lines 104-109). *)
Definition fallback_result (query : text) : record :=
  {[ "title" := VStr (lit "Search: " ++ query);
     "snippet" := VStr (lit
        "Unable to fetch live search results. This would normally search for: "
        ++ query);
     "link" := VStr (lit "https://www.google.com/search?q=" ++
        replace 32 43 query);
     "source" := VStr (lit "Fallback") ]}.

(** Lines 75-101: what the secondary provider makes of a decoded body. *)
Definition duckduckgo_results (query : text) (num_results : Z) (data : value)
  : search_exn + list record :=
  abstract ← py_get data "Abstract" VNone;
  results ← (if truthy abstract
             then r ← abstract_result query data; mret [r]
             else mret []);
  related ← py_get data "RelatedTopics" (VList []);
  sliced ← py_slice_to (num_results - 1) related;
  topics ← py_iter sliced;
  results ← topics_loop topics results;
  mret (match results with
        | [] => [placeholder_result query]
        | _ => results
        end).

(** ** The agent and its world

    [__init__] stores the generative model and the two optional search
    credentials; no method assigns to them afterwards.  The model is seen
    through [generate_content(prompt).text], which raises or yields text. *)

Inductive gen_exn : Type :=
| KeyError (k : string)          (* result[k] on a record without k *)
| CompletionError (msg : text).  (* raised by the model call; msg is str(e) *)

Record WebSearchAgent := Agent {
  model : text → gen_exn + text;
  search_api_key : option text;
  search_engine_id : option text
}.

(** The state the methods run in: the agent object and the requests sent
    so far, oldest first. *)
Record world := World {
  self : WebSearchAgent;
  sent : list request
}.

(** A method that cannot raise, and one that can. *)
Definition Run (A : Type) : Type := world → A * world.
Definition Exec (A : Type) : Type := world → (search_exn + A) * world.

#[global] Instance Exec_ret : MRet Exec := λ _ x w, (inr x, w).
#[global] Instance Exec_bind : MBind Exec := λ _ _ f m w,
  match m w with
  | (inl e, w') => (inl e, w')
  | (inr x, w') => f x w'
  end.

(** A step that only computes. *)
Definition lift {A} (m : search_exn + A) : Exec A := λ w, (m, w).

(** Reading an attribute of [self]. *)
Definition attr {A} (field : WebSearchAgent → A) : Exec A :=
  λ w, (inr (field (self w)), w).

(** [try: body except Exception as e: handler]. *)
Definition try_except {A} (body : Exec A) (handler : search_exn → Run A) : Run A :=
  λ w, match body w with
       | (inr x, w') => (x, w')
       | (inl e, w') => handler e w'
       end.

(** A credential as a request parameter. *)
Definition credential (c : option text) : value :=
  match c with
  | Some s => VStr s
  | None => VNone
  end.

Definition google_url : text := lit "https://www.googleapis.com/customsearch/v1".
Definition duckduckgo_url : text := lit "https://api.duckduckgo.com/".

(** The [params] dictionaries of lines 35-40 and 65-70. *)
Definition google_params (key cx : option text) (query : text) (num_results : Z)
  : record :=
  {[ "key" := credential key; "cx" := credential cx;
     "q" := VStr query; "num" := VInt (Z.min num_results 10) ]}.

Definition duckduckgo_params (query : text) : record :=
  {[ "q" := VStr query; "format" := VStr (lit "json");
     "no_html" := VStr (lit "1"); "skip_disambig" := VStr (lit "1") ]}.

Section Providers.

(** The network: the outcome of [requests.get] for a request, given the
    requests sent before it.  [None] means the call raised. *)
Variable net : list request → request → option response.

Definition requests_get (u : text) (p : record) : Exec response :=
  λ w, let req := Request u p in
       (match net (sent w) req with
        | Some r => inr r
        | None => inl RequestException
        end,
        World (self w) (sent w ++ [req])).

(** The [try] block of [_duckduckgo_search] (lines 64-101). *)
Definition _duckduckgo_try (query : text) (num_results : Z) : Exec (list record) :=
  response ← requests_get duckduckgo_url (duckduckgo_params query);
  _ ← lift (raise_for_status response);
  data ← lift (json response);
  lift (duckduckgo_results query num_results data).

Definition _duckduckgo_search (query : text) (num_results : Z) : Run (list record) :=
  try_except (_duckduckgo_try query num_results)
    (λ _ w, ([fallback_result query], w)).

(** The [try] block of [_google_search] (lines 34-56). *)
Definition _google_try (query : text) (num_results : Z) : Exec (list record) :=
  key ← attr search_api_key;
  cx ← attr search_engine_id;
  response ← requests_get google_url (google_params key cx query num_results);
  _ ← lift (raise_for_status response);
  data ← lift (json response);
  lift (google_results data).

Definition _google_search (query : text) (num_results : Z) : Run (list record) :=
  try_except (_google_try query num_results)
    (λ _, _duckduckgo_search query num_results).

Definition search_web (query : text) (num_results : Z) : Run (list record) :=
  λ w, if configured (search_api_key (self w))
          && configured (search_engine_id (self w))
       then _google_search query num_results w
       else _duckduckgo_search query num_results w.

End Providers.

(** ** Answer synthesis *)

(** [str(e)] as the f-string of line 133 renders it. *)
Definition str_exn (e : gen_exn) : text :=
  match e with
  | KeyError k => lit "'" ++ lit k ++ lit "'"
  | CompletionError msg => msg
  end.

(** [r[k]] on a result record. *)
Definition getitem (r : record) (k : string) : gen_exn + value :=
  match r !! k with
  | Some v => inr v
  | None => inl (KeyError k)
  end.

(** The indentation of the continuation lines of the prompt literal. *)
Definition indent : text := replicate 21 32%N.

Section Synthesis.

(** Python's [str()] on the values that are not text; a replacement field
    [{v}] renders a text as itself. *)
Variable str_of : value → text.

Definition format_value (v : value) : text :=
  match v with
  | VStr s => s
  | _ => str_of v
  end.

(** The loop of lines 114-117, [i] being the running index. *)
Fixpoint context_loop (i : nat) (search_results : list record) (context : text)
  : gen_exn + text :=
  match search_results with
  | [] => mret context
  | result :: rest =>
      title ← getitem result "title";
      let context := context ++ lit (pretty i) ++ lit ", **" ++
                     format_value title ++ lit "**" ++ [LF] in
      snippet ← getitem result "snippet";
      let context := context ++ lit "   " ++ format_value snippet ++ [LF] in
      link ← getitem result "link";
      let context := context ++ lit "   Source: " ++ format_value link ++
                     [LF; LF] in
      context_loop (S i) rest context
  end.

(** The prompt literal of lines 119-129. *)
Definition prompt_of (query context : text) : text :=
  lit "You are helpful AI assistant. Based on the following search results, provide a comprehensive and accurate answer to the user's question."
    ++ [LF] ++
  indent ++ lit "User Question: " ++ query ++ [LF] ++
  indent ++ context ++ [LF] ++
  indent ++ lit "Please provide a well-structured response that:" ++ [LF] ++
  indent ++ lit "1. Directly answers the user's question" ++ [LF] ++
  indent ++ lit "2. Synthesizes information from the search results" ++ [LF] ++
  indent ++ lit "3. Mentions sources when relevant" ++ [LF] ++
  indent ++ lit "4. Is clear and easy to understand" ++ [LF] ++
  indent ++ lit "5. Acknowledges if information is limited or uncertain" ++ [LF] ++
  indent ++ [LF] ++
  indent ++ lit "Response:".

(** The [try] block of [generate_response] (lines 113-131). *)
Definition generate_try (me : WebSearchAgent) (query : text)
    (search_results : list record) : gen_exn + text :=
  context ← context_loop 1 search_results
              (lit "Here are the search results: " ++ [LF; LF]);
  model me (prompt_of query context).

(** One element of the list comprehension of line 134; the bullet is
    U+2022. *)
Definition bullet (r : record) : gen_exn + text :=
  title ← getitem r "title";
  snippet ← getitem r "snippet";
  mret ([0x2022%N] ++ lit " " ++ format_value title ++ lit ": " ++
        format_value snippet).

(** The [except] branch (lines 133-134); the cross mark is U+274C. *)
Definition degraded_response (e : gen_exn) (search_results : list record)
  : gen_exn + text :=
  let head := [0x274C%N] ++ lit " Error generating response: " ++ str_exn e ++
              [LF; LF] ++ lit "Here are the raw search results:" ++ [LF] in
  lines ← mapM bullet search_results;
  mret (head ++ join [LF] lines).

Definition generate_response (me : WebSearchAgent) (query : text)
    (search_results : list record) : gen_exn + text :=
  match generate_try me query search_results with
  | inr answer => inr answer
  | inl e => degraded_response e search_results
  end.

End Synthesis.

(** ** The facade and the interactive loop *)

(** The dictionary [search_and_answer] returns (lines 146-151); its four
    keys are fixed, so it is a record here. *)
Record AnswerBundle := Bundle {
  bundle_query : text;
  bundle_search_results : list record;
  bundle_ai_response : text;
  bundle_timestamp : text
}.

(** [print] on a UTF-8 console raises [UnicodeEncodeError] exactly when the
    text holds a surrogate code point (U+D800 to U+DFFF), which UTF-8
    cannot encode; a Python [str] may hold one. *)
Definition surrogate (c : N) : bool := (0xD800 <=? c)%N && (c <=? 0xDFFF)%N.

Definition printable (s : text) : bool := forallb (λ c, negb (surrogate c)) s.

(** What can leave [search_and_answer]: the exception of a [print], or
    the one [generate_response] raised. *)
Inductive answer_exn : Type :=
| UnicodeEncodeError
| SynthesisError (e : gen_exn).

Definition print (s : text) : answer_exn + unit :=
  if printable s then inr tt else inl UnicodeEncodeError.

(** A call of [generate_response] inside [search_and_answer]. *)
Definition synthesis {A} (m : gen_exn + A) : answer_exn + A :=
  match m with
  | inl e => inl (SynthesisError e)
  | inr x => inr x
  end.

(** How the loop of [main] ended: on a quit word (line 172), or because
    [input] had nothing more to read and raised [EOFError], which the outer
    handler of line 190 catches. *)
Inductive stop : Type :=
| Goodbye
| EndOfInput.

Section Shell.

Variable net : list request → request → option response.
Variable str_of : value → text.

(** [datetime.now().isoformat()] as read in a given world. *)
Variable now : world → text.

(** Python's [str.strip()] and [str.lower()]. *)
Variable strip : text → text.
Variable lower : text → text.

(** Lines 137-151.  The method has no handler of its own: an exception of
    a [print] or of [generate_response] leaves it.  The first print (the
    magnifying glass is U+1F50D) comes before the search, the other two
    (U+2705 and U+1F916) after it. *)
Definition search_and_answer (query : text) (num_results : Z)
  : world → (answer_exn + AnswerBundle) * world :=
  λ w, match print ([0x1F50D%N] ++ lit " Searching for: " ++ query) with
       | inl e => (inl e, w)
       | inr _ =>
           let '(search_results, w') := search_web net query num_results w in
           (_ ← print ([0x2705%N] ++ lit " Found " ++
                       lit (pretty (length search_results)) ++ lit " results");
            _ ← print ([0x1F916%N] ++ lit " Generating AI response...");
            ai_response ← synthesis
              (generate_response str_of (self w') query search_results);
            mret (Bundle query search_results ai_response (now w')),
            w')
       end.

(** The test of line 170. *)
Definition quit_word (query : text) : bool :=
  bool_decide (lower query ∈ [lit "quit"; lit "exit"; lit "q"]).

(** The [while True] loop of lines 168-188 on the lines that [input] will
    return, in order.  The loop is seen through the bundles it obtained at
    line 176, which are the ones it goes on to display; the default limit
    of [search_and_answer] is 5.  An exception inside one round, of
    [search_and_answer] or of the display, is caught by the handler of
    line 187 and the loop goes on. *)
Fixpoint main_loop (lines : list text) (w : world)
  : list AnswerBundle * stop * world :=
  match lines with
  | [] => ([], EndOfInput, w)
  | line :: rest =>
      let query := strip line in
      if quit_word query then ([], Goodbye, w)
      else if negb (truthy (VStr query)) then main_loop rest w
      else
        match search_and_answer query 5 w with
        | (inr result, w') =>
            let '(shown, how, w'') := main_loop rest w' in
            (result :: shown, how, w'')
        | (inl _, w') => main_loop rest w'
        end
  end.

End Shell.

(** ** Vocabulary of the statements *)

(** The request each provider sends. *)
Definition google_request (me : WebSearchAgent) (query : text) (num_results : Z)
  : request :=
  Request google_url
    (google_params (search_api_key me) (search_engine_id me) query num_results).

Definition duckduckgo_request (query : text) : request :=
  Request duckduckgo_url (duckduckgo_params query).

(** What the first three statements of either [try] block obtain from the
    outcome of [requests.get]: the decoded body, or the exception of the
    first call that raised. *)
Definition decoded (outcome : option response) : search_exn + value :=
  match outcome with
  | None => inl RequestException
  | Some r => _ ← raise_for_status r; json r
  end.

(** The world after one more request. *)
Definition after (w : world) (req : request) : world :=
  World (self w) (sent w ++ [req]).

(** The truncation law in the words of the specification: the first
    min(len(s), n) code points of [s], then the ellipsis.  The source
    computes [s[:n] + '...'], which is [slice_to] followed by [++]. *)
Definition truncated (n : nat) (s : text) : text :=
  take (Nat.min (length s) n) s ++ lit "...".

(** A record with the three keys [generate_response] reads. *)
Definition readable (r : record) : Prop :=
  is_Some (r !! "title") ∧ is_Some (r !! "snippet") ∧ is_Some (r !! "link").

(** A network whose answer to a request does not depend on what was sent
    before: a deterministic stub. *)
Definition deterministic (net : list request → request → option response) : Prop :=
  ∀ h h' req, net h req = net h' req.

(** The five shapes of record a provider path can produce for a query. *)
Inductive produced (query : text) (r : record) : Prop :=
| produced_google item : google_result item = inr r → produced query r
| produced_abstract data : abstract_result query data = inr r → produced query r
| produced_topic topic : topic_result topic = inr r → produced query r
| produced_placeholder : r = placeholder_result query → produced query r
| produced_fallback : r = fallback_result query → produced query r.

(** ** Concrete agents and networks

    Small closed instances on which the statements below are evaluated. *)

(** A model that is out of quota. *)
Definition model_down : text → gen_exn + text :=
  λ _, inl (CompletionError (lit "quota exceeded")).

Definition agent_keyed : WebSearchAgent :=
  Agent model_down (Some (lit "KEY")) (Some (lit "CX")).

Definition agent_keyless : WebSearchAgent := Agent model_down None None.

(** No request gets a response. *)
Definition net_down : list request → request → option response :=
  λ _ _, None.

(** The primary provider answers 200 with a body that has no [items], as it
    does for a query without hits; the secondary provider is unreachable. *)
Definition body_no_items : value :=
  VDict [(lit "kind", VStr (lit "customsearch#search"));
         (lit "searchInformation", VDict [(lit "totalResults", VStr (lit "0"))])].

Definition net_no_items : list request → request → option response :=
  λ _ req, if bool_decide (url req = google_url)
           then Some (Response true (Some body_no_items))
           else None.

(** The primary provider answers with an error status; the secondary one
    knows Paris. *)
Definition body_paris : value :=
  VDict [(lit "Abstract", VStr (lit "Paris is the capital of France."));
         (lit "Heading", VStr (lit "Paris"));
         (lit "AbstractURL", VStr (lit "https://en.wikipedia.org/wiki/Paris"));
         (lit "RelatedTopics",
          VList [VDict [(lit "Text", VStr (lit "Paris, Texas"));
                        (lit "FirstURL", VStr (lit "https://duckduckgo.com/Paris_Texas"))];
                 VDict [(lit "Name", VStr (lit "Places"))];
                 VDict [(lit "Text", VStr (lit "Paris Hilton"))]])].

Definition net_paris : list request → request → option response :=
  λ _ req, if bool_decide (url req = duckduckgo_url)
           then Some (Response true (Some body_paris))
           else Some (Response false None).

(** What the secondary provider makes of [body_paris]: the abstract-derived
    record and the records of the two topics that have a text. *)
Definition paris_record : record :=
  {[ "title" := VStr (lit "Paris");
     "snippet" := VStr (lit "Paris is the capital of France....");
     "link" := VStr (lit "https://en.wikipedia.org/wiki/Paris") ]}.

Definition texas_record : record :=
  {[ "title" := VStr (lit "Paris, Texas...");
     "snippet" := VStr (lit "Paris, Texas...");
     "link" := VStr (lit "https://duckduckgo.com/Paris_Texas");
     "source" := VStr (lit "DuckDuckGo") ]}.

Definition hilton_record : record :=
  {[ "title" := VStr (lit "Paris Hilton...");
     "snippet" := VStr (lit "Paris Hilton...");
     "link" := VStr [];
     "source" := VStr (lit "DuckDuckGo") ]}.

Definition france : text := lit "capital of France".

(** A rendering of non-text values, enough to run [generate_response]. *)
Definition str_plain (v : value) : text :=
  match v with
  | VNone => lit "None"
  | VBool true => lit "True"
  | VBool false => lit "False"
  | VInt z => lit (pretty z)
  | _ => lit "..."
  end.

(** ** More vocabulary and instances *)




Definition is_dict (v : value) : Prop :=
  match v with
  | VDict _ => True
  | _ => False
  end.

Definition is_text (v : value) : Prop :=
  match v with
  | VStr _ => True
  | _ => False
  end.

(** [str.lower()] and [str.strip()] on ASCII letters and spaces, for the
    instances below. *)
Definition ascii_lower (s : text) : text :=
  (λ c, if (65 <=? c)%N && (c <=? 90)%N then (c + 32)%N else c) <$> s.

Fixpoint drop_spaces (s : text) : text :=
  match s with
  | 32%N :: rest => drop_spaces rest
  | _ => s
  end.

Definition ascii_strip (s : text) : text :=
  reverse (drop_spaces (reverse (drop_spaces s))).

Definition clock_noon : world → text := λ _, lit "2024-05-01T12:00:00".

(** A model that answers every prompt with the same sentence. *)
Definition model_up : text → gen_exn + text :=
  λ _, inr (lit "Paris is the capital of France.").

Definition agent_up : WebSearchAgent := Agent model_up None None.

(** A primary body with two items, one of them without a snippet. *)
Definition body_two_items : value :=
  VDict [(lit "items",
          VList [VDict [(lit "title", VStr (lit "Paris"));
                        (lit "snippet", VStr (lit "Capital of France"));
                        (lit "link", VStr (lit "https://paris.example"))];
                 VDict [(lit "title", VStr (lit "France"));
                        (lit "link", VStr (lit "https://france.example"))]])].

Definition net_two_items : list request → request → option response :=
  λ _ req, if bool_decide (url req = google_url)
           then Some (Response true (Some body_two_items))
           else None.




(** A query with a lone surrogate, U+D83D. *)
Definition query_surrogate : text := lit "caf" ++ [0xD83D%N].

(** A primary body whose second item is not an object. *)
Definition body_bad_item : value :=
  VDict [(lit "items",
          VList [VDict [(lit "title", VStr (lit "Paris"))]; VInt 7])].

Definition net_bad_item : list request → request → option response :=
  λ _ req, if bool_decide (url req = google_url)
           then Some (Response true (Some body_bad_item))
           else None.

(** A secondary body whose abstract is a number. *)
Definition body_numeric_abstract : value :=
  VDict [(lit "Abstract", VInt 42);
         (lit "RelatedTopics",
          VList [VDict [(lit "Text", VStr (lit "Paris, Texas"))]])].

Definition net_numeric_abstract : list request → request → option response :=
  λ _ _, Some (Response true (Some body_numeric_abstract)).

(** Records that lack a key. *)
Definition record_without_link : record :=
  {[ "title" := VStr (lit "Paris"); "snippet" := VStr (lit "Capital") ]}.

Definition record_without_title : record :=
  {[ "snippet" := VStr (lit "Capital"); "link" := VStr (lit "https://paris.example") ]}.

(** * Properties *)

(** ** The primitives on small inputs *)

Example slice_to_prefix : slice_to 2 [1; 2; 3] = [1; 2].
Proof. reflexivity. Qed.

Example slice_to_zero : slice_to 0 [1; 2; 3] = [].
Proof. reflexivity. Qed.

Example slice_to_negative : slice_to (-1) [1; 2; 3] = [1; 2].
Proof. reflexivity. Qed.

Example slice_to_beyond : slice_to 200 (lit "short") = lit "short".
Proof. reflexivity. Qed.

Example replace_spaces : replace 32 43 (lit "a b  c") = lit "a+b++c".
Proof. reflexivity. Qed.

Example join_lines : join [LF] [lit "a"; lit "b"] = lit "a" ++ [LF] ++ lit "b".
Proof. reflexivity. Qed.

Example truthy_falsy :
  truthy (VStr []) = false ∧ truthy (VFloat (S754_zero true)) = false ∧
  truthy (VInt 0) = false ∧ truthy (VDict []) = false ∧ truthy VNone = false.
Proof. repeat split. Qed.

Example truthy_truthy :
  truthy (VStr (lit " ")) = true ∧ truthy (VFloat S754_nan) = true ∧
  truthy (VList [VNone]) = true.
Proof. repeat split. Qed.

Example dict_get_first :
  dict_get [(lit "a", VInt 1); (lit "b", VInt 2)] (lit "b") = Some (VInt 2).
Proof. reflexivity. Qed.

Example py_get_on_list : py_get (VList []) "items" (VList []) = inl AttributeError.
Proof. reflexivity. Qed.

Example py_iter_text : py_iter (VStr (lit "ab")) = inr [VStr (lit "a"); VStr (lit "b")].
Proof. reflexivity. Qed.

(** The end-to-end scenario: the primary provider fails, the secondary one
    answers with an abstract about Paris and three related topics, of which
    the first two are visited for limit 3 and one has a text. *)
Example search_paris :
  (search_web net_paris france 3 (World agent_keyed [])).1
  = [paris_record; texas_record].
Proof. vm_compute. reflexivity. Qed.

(** ** Monadic bookkeeping *)

Section SumMonad.
Context {E A B : Type}.

Lemma bind_inr (m : E + A) (f : A → E + B) (y : B) :
  m ≫= f = inr y ↔ ∃ x, m = inr x ∧ f x = inr y.
Proof.
  split.
  - destruct m as [e|x]; intros H; [discriminate | eauto].
  - intros (x & -> & Hx). exact Hx.
Qed.

Lemma bind_inl (m : E + A) (f : A → E + B) (e : E) :
  m ≫= f = inl e ↔ m = inl e ∨ ∃ x, m = inr x ∧ f x = inl e.
Proof.
  split.
  - destruct m as [e'|x]; intros H; [left; injection H as -> | right]; eauto.
  - intros [-> | (x & -> & Hx)]; [reflexivity | exact Hx].
Qed.
End SumMonad.

(** Peels the binds of a successful computation in hypothesis [H]. *)
Ltac invert_bind H :=
  repeat match type of H with
  | _ ≫= _ = inr _ =>
      let x := fresh "x" in let Hx := fresh "Hx" in
      apply bind_inr in H as (x & Hx & H)
  | mret _ = inr _ => injection H as H
  | inr _ = inr _ => injection H as H
  end.

(** ** The [try] blocks as functions of the network outcome *)

Section ProviderFacts.
Variable net : list request → request → option response.

Lemma _duckduckgo_try_eq query num_results w :
  _duckduckgo_try net query num_results w =
    (decoded (net (sent w) (duckduckgo_request query))
       ≫= duckduckgo_results query num_results,
     after w (duckduckgo_request query)).
Proof.
  unfold _duckduckgo_try, decoded, after, duckduckgo_request.
  cbv [mbind Exec_bind requests_get lift].
  destruct (net _ _) as [[[] [data|]]|]; reflexivity.
Qed.

Lemma _google_try_eq query num_results w :
  _google_try net query num_results w =
    (decoded (net (sent w) (google_request (self w) query num_results))
       ≫= google_results,
     after w (google_request (self w) query num_results)).
Proof.
  unfold _google_try, decoded, after, google_request.
  cbv [mbind Exec_bind requests_get lift attr].
  destruct (net _ _) as [[[] [data|]]|]; reflexivity.
Qed.
End ProviderFacts.

(** ** What a completed step tells about its input *)

Lemma py_get_inr v k dflt x :
  py_get v k dflt = inr x →
  ∃ d, v = VDict d ∧ x = default dflt (dict_get d (lit k)).
Proof. destruct v; simpl; intros H; try discriminate. injection H as <-. eauto. Qed.

Lemma py_add_str_inr v suffix x :
  py_add_str v suffix = inr x → ∃ s, v = VStr s ∧ x = VStr (s ++ suffix).
Proof. destruct v; simpl; intros H; try discriminate. injection H as <-. eauto. Qed.

Lemma slice_to_nonneg {A} (n : nat) (l : list A) : slice_to (Z.of_nat n) l = take n l.
Proof.
  unfold slice_to. destruct (Z.leb_spec 0 (Z.of_nat n)); [|lia].
  by rewrite Nat2Z.id.
Qed.

Lemma truncated_take n (s : text) : truncated n s = take n s ++ lit "...".
Proof.
  unfold truncated. f_equal.
  destruct (Nat.le_gt_cases (length s) n) as [H|H].
  - rewrite Nat.min_l by done. by rewrite !take_ge by lia.
  - rewrite Nat.min_r by lia. done.
Qed.

(** [v[:n] + '...'] succeeds on text only, and then truncates. *)
Lemma cut_inr (n : nat) v cut x :
  py_slice_to (Z.of_nat n) v = inr cut → py_add_str cut (lit "...") = inr x →
  ∃ s, v = VStr s ∧ x = VStr (truncated n s).
Proof.
  intros Hcut Hadd. apply py_add_str_inr in Hadd as (s' & -> & ->).
  destruct v; simpl in Hcut; try discriminate; injection Hcut as <-.
  eexists; split; [done|]. by rewrite slice_to_nonneg, truncated_take.
Qed.

Lemma google_result_inr item r :
  google_result item = inr r →
  ∃ title snippet link,
    r = {[ "title" := title; "snippet" := snippet; "link" := link;
           "source" := VStr (lit "Google") ]}.
Proof. unfold google_result. intros H. invert_bind H. subst r. eauto. Qed.

Lemma abstract_result_inr query data r :
  abstract_result query data = inr r →
  ∃ title s link,
    py_get data "Abstract" (VStr []) = inr (VStr s) ∧
    r = {[ "title" := title; "snippet" := VStr (truncated 200 s);
           "link" := link ]}.
Proof.
  unfold abstract_result. intros H. invert_bind H. subst r.
  destruct (cut_inr 200 _ _ _ Hx1 Hx2) as (s & -> & ->). eauto 6.
Qed.

Lemma topic_result_inr topic r :
  topic_result topic = inr r →
  ∃ s link,
    py_get topic "Text" (VStr []) = inr (VStr s) ∧
    r = {[ "title" := VStr (truncated 50 s);
           "snippet" := VStr (truncated 200 s); "link" := link;
           "source" := VStr (lit "DuckDuckGo") ]}.
Proof.
  unfold topic_result. intros H. invert_bind H. subst r.
  destruct (cut_inr 50 _ _ _ Hx0 Hx1) as (s & -> & ->).
  destruct (cut_inr 200 _ _ _ Hx3 Hx4) as (s' & -> & ->).
  rewrite Hx in Hx2. injection Hx2 as ->. eauto.
Qed.

(** ** The loops *)

Lemma google_loop_inr items acc rs :
  google_loop items acc = inr rs →
  ∃ new, rs = acc ++ new ∧
         Forall2 (λ item r, google_result item = inr r) items new.
Proof.
  revert acc. induction items as [|item rest IH]; simpl; intros acc H.
  - injection H as <-. exists []. by rewrite app_nil_r.
  - apply bind_inr in H as (r & Hr & H).
    apply IH in H as (new & -> & Hnew).
    exists (r :: new). split; [by rewrite <- app_assoc | by constructor].
Qed.

Lemma topics_loop_inr topics acc rs :
  topics_loop topics acc = inr rs →
  ∃ new, rs = acc ++ new ∧
         Forall2 (λ topic r, topic_result topic = inr r)
                 (filter (λ t, topic_has_text t = true) topics) new.
Proof.
  revert acc. induction topics as [|topic rest IH]; simpl; intros acc H.
  - injection H as <-. exists []. by rewrite app_nil_r.
  - rewrite filter_cons. destruct (topic_has_text topic) eqn:Hguard.
    + apply bind_inr in H as (r & Hr & H).
      apply IH in H as (new & -> & Hnew).
      exists (r :: new). rewrite decide_True by done.
      split; [by rewrite <- app_assoc | by constructor].
    + apply IH in H as (new & -> & Hnew).
      exists new. by rewrite decide_False by done.
Qed.

(** Slicing and then iterating visits a prefix of what iterating visits. *)
Lemma py_iter_slice k v sliced topics :
  py_slice_to k v = inr sliced → py_iter sliced = inr topics →
  ∃ all, py_iter v = inr all ∧ topics = slice_to k all.
Proof.
  destruct v; simpl; intros H; try discriminate; injection H as <-;
    simpl; intros H; injection H as <-.
  - eexists; split; [done|]. unfold slice_to.
    rewrite length_fmap. by destruct (0 <=? k); rewrite fmap_take.
  - eauto.
Qed.

Lemma duckduckgo_results_inr query num_results data rs :
  duckduckgo_results query num_results data = inr rs →
  ∃ abstract lead related sliced topics found,
    py_get data "Abstract" VNone = inr abstract ∧
    (if truthy abstract
     then ∃ r, abstract_result query data = inr r ∧ lead = [r]
     else lead = []) ∧
    py_get data "RelatedTopics" (VList []) = inr related ∧
    py_slice_to (num_results - 1) related = inr sliced ∧
    py_iter sliced = inr topics ∧
    Forall2 (λ topic r, topic_result topic = inr r)
            (filter (λ t, topic_has_text t = true) topics) found ∧
    rs = match lead ++ found with
         | [] => [placeholder_result query]
         | results => results
         end.
Proof.
  unfold duckduckgo_results. intros H.
  apply bind_inr in H as (abstract & Habs & H).
  apply bind_inr in H as (lead & Hlead & H).
  apply bind_inr in H as (related & Hrel & H).
  apply bind_inr in H as (sliced & Hsl & H).
  apply bind_inr in H as (topics & Htop & H).
  apply bind_inr in H as (results & Hloop & H).
  injection H as <-.
  apply topics_loop_inr in Hloop as (found & -> & Hfound).
  exists abstract, lead, related, sliced, topics, found.
  split_and!; try done.
  destruct (truthy abstract).
  - apply bind_inr in Hlead as (r & Hr & Hlead). injection Hlead as <-. eauto.
  - by injection Hlead as <-.
  - by destruct (lead ++ found).
Qed.

(** ** What the providers return *)

Section ProviderResults.
Variable net : list request → request → option response.

Lemma _duckduckgo_search_eq query num_results w :
  _duckduckgo_search net query num_results w =
    (match decoded (net (sent w) (duckduckgo_request query))
             ≫= duckduckgo_results query num_results with
     | inr results => results
     | inl _ => [fallback_result query]
     end,
     after w (duckduckgo_request query)).
Proof.
  unfold _duckduckgo_search, try_except. rewrite _duckduckgo_try_eq.
  by destruct (_ ≫= _).
Qed.

Lemma _google_search_eq query num_results w :
  _google_search net query num_results w =
    let req := google_request (self w) query num_results in
    match decoded (net (sent w) req) ≫= google_results with
    | inr results => (results, after w req)
    | inl _ => _duckduckgo_search net query num_results (after w req)
    end.
Proof.
  unfold _google_search, try_except. rewrite _google_try_eq.
  by destruct (_ ≫= _).
Qed.

Lemma google_results_produced query data rs :
  google_results data = inr rs → Forall (produced query) rs.
Proof.
  unfold google_results. intros H.
  apply bind_inr in H as (v & _ & H). apply bind_inr in H as (items & _ & H).
  apply google_loop_inr in H as (new & -> & Hnew). simpl.
  induction Hnew as [|item r ? ? Hr _ IH]; constructor; [|done].
  by eapply produced_google.
Qed.

Lemma topics_produced query topics found :
  Forall2 (λ topic r, topic_result topic = inr r) topics found →
  Forall (produced query) found.
Proof.
  induction 1 as [|topic r ? ? Hr _ IH]; constructor; [|done].
  by eapply produced_topic.
Qed.

Lemma duckduckgo_results_produced query num_results data rs :
  duckduckgo_results query num_results data = inr rs →
  rs ≠ [] ∧ Forall (produced query) rs.
Proof.
  intros H.
  apply duckduckgo_results_inr in H
    as (abstract & lead & ? & ? & ? & found & _ & Hlead & _ & _ & _ & Hfound & ->).
  assert (Forall (produced query) (lead ++ found)) as Hall.
  { apply Forall_app. split; [|by eapply topics_produced].
    destruct (truthy abstract).
    - destruct Hlead as (r & Hr & ->). apply Forall_singleton.
      by eapply produced_abstract.
    - subst lead. constructor. }
  destruct (lead ++ found) as [|r rest]; [|done].
  split; [done|]. apply Forall_singleton. by apply produced_placeholder.
Qed.

Lemma _duckduckgo_search_produced query num_results w :
  (_duckduckgo_search net query num_results w).1 ≠ [] ∧
  Forall (produced query) (_duckduckgo_search net query num_results w).1.
Proof.
  rewrite _duckduckgo_search_eq. simpl.
  destruct (_ ≫= _) as [e|rs] eqn:Hrun.
  - split; [done|]. apply Forall_singleton. by apply produced_fallback.
  - apply bind_inr in Hrun as (data & _ & Hrun).
    by eapply duckduckgo_results_produced.
Qed.

Lemma search_web_produced query num_results w :
  Forall (produced query) (search_web net query num_results w).1.
Proof.
  unfold search_web. destruct (_ && _).
  - rewrite _google_search_eq. simpl.
    destruct (_ ≫= _) as [e|rs] eqn:Hrun.
    + apply _duckduckgo_search_produced.
    + apply bind_inr in Hrun as (data & _ & Hrun).
      by eapply google_results_produced.
  - apply _duckduckgo_search_produced.
Qed.

(** The only state a search changes is the log of requests. *)
Lemma search_web_self query num_results w :
  self (search_web net query num_results w).2 = self w.
Proof.
  unfold search_web. destruct (_ && _).
  - rewrite _google_search_eq. simpl. destruct (_ ≫= _); [|done].
    by rewrite _duckduckgo_search_eq.
  - by rewrite _duckduckgo_search_eq.
Qed.

End ProviderResults.

(** Evaluates the lookups of literal keys in record literals of the goal. *)
Ltac eval_lookup :=
  repeat match goal with
  | |- context [@lookup string value record _ ?k ?m] =>
      let o := eval vm_compute in (m !! k) in
      progress change (m !! k) with o
  end.

Lemma produced_readable query r : produced query r → readable r.
Proof.
  intros [item H|data H|topic H|H|H].
  - apply google_result_inr in H as (? & ? & ? & ->). by repeat split; eexists.
  - apply abstract_result_inr in H as (? & ? & ? & _ & ->). by repeat split; eexists.
  - apply topic_result_inr in H as (? & ? & _ & ->). by repeat split; eexists.
  - subst r. by repeat split; eexists.
  - subst r. by repeat split; eexists.
Qed.

(** Among the five shapes, only the abstract-derived one has no source. *)
Lemma produced_source query r :
  produced query r →
  match r !! "source" with
  | Some tag => tag = VStr (lit "Google") ∨ tag = VStr (lit "DuckDuckGo") ∨
                tag = VStr (lit "Fallback")
  | None => ∃ data, abstract_result query data = inr r
  end.
Proof.
  intros [item H|data H|topic H|H|H].
  - apply google_result_inr in H as (? & ? & ? & ->). by left.
  - pose proof H as H'.
    apply abstract_result_inr in H as (? & ? & ? & _ & ->). eval_lookup. by exists data.
  - apply topic_result_inr in H as (? & ? & _ & ->). right. by left.
  - subst r. right. by left.
  - subst r. right. by right.
Qed.

(** ** The properties of the specification, C1 to C10 *)

(** A search can only come back empty from a successful primary call. *)
Lemma search_web_empty net query num_results w :
  (search_web net query num_results w).1 = [] →
  configured (search_api_key (self w)) = true ∧
  configured (search_engine_id (self w)) = true ∧
  ∃ data, decoded (net (sent w) (google_request (self w) query num_results))
            = inr data ∧
          google_results data = inr [].
Proof.
  unfold search_web.
  destruct (configured (search_api_key _)), (configured (search_engine_id _));
    simpl; intros H; try by apply _duckduckgo_search_produced in H.
  rewrite _google_search_eq in H. simpl in H.
  destruct (_ ≫= _) as [e|rs] eqn:Hrun.
  - by apply _duckduckgo_search_produced in H.
  - simpl in H. subst rs. apply bind_inr in Hrun. done.
Qed.

(** C1 (fails on the code): with both credentials configured and the primary
    provider answering successfully with no [items], [search_web] returns
    the empty list for limit 5; the secondary provider's placeholder and the
    Fallback record are not reached. *)
Theorem search_web_empty_on_primary_success :
  (search_web net_no_items france 5 (World agent_keyed [])).1 = [].
Proof. vm_compute. reflexivity. Qed.

(** C2: when the secondary provider's [try] block completes for a limit of
    at least 1, the topics its loop visits are the first [limit - 1]
    elements of the related-topics sequence, taken before the text filter,
    so at most [limit - 1] related results follow the optional abstract
    result; for limit 1 no topic is visited and the output is the single
    abstract-derived record when the abstract is truthy, else the single
    placeholder. *)
Theorem related_topics_limit net query num_results w rs :
  1 ≤ num_results →
  (_duckduckgo_try net query num_results w).1 = inr rs →
  ∃ data abstract all lead found,
    decoded (net (sent w) (duckduckgo_request query)) = inr data ∧
    py_get data "Abstract" VNone = inr abstract ∧
    py_get data "RelatedTopics" (VList []) ≫= py_iter = inr all ∧
    Forall2 (λ topic r, topic_result topic = inr r)
      (filter (λ t, topic_has_text t = true)
              (take (Z.to_nat (num_results - 1)) all)) found ∧
    Z.of_nat (length found) ≤ num_results - 1 ∧
    (if truthy abstract
     then ∃ r, abstract_result query data = inr r ∧ lead = [r]
     else lead = []) ∧
    rs = match lead ++ found with
         | [] => [placeholder_result query]
         | results => results
         end ∧
    (num_results = 1 →
     found = [] ∧
     rs = if truthy abstract then lead else [placeholder_result query]).
Proof.
  intros Hlimit Hrun. rewrite _duckduckgo_try_eq in Hrun. simpl in Hrun.
  apply bind_inr in Hrun as (data & Hdata & Hrun).
  apply duckduckgo_results_inr in Hrun
    as (abstract & lead & related & sliced & topics & found
        & Habs & Hlead & Hrel & Hsl & Htop & Hfound & ->).
  destruct (py_iter_slice _ _ _ _ Hsl Htop) as (all & Hall & ->).
  assert (slice_to (num_results - 1) all = take (Z.to_nat (num_results - 1)) all)
    as Hslice.
  { unfold slice_to. destruct (Z.leb_spec 0 (num_results - 1)); [done | lia]. }
  rewrite Hslice in *.
  assert (length found ≤ Z.to_nat (num_results - 1))%nat as Hcount.
  { rewrite <- (Forall2_length _ _ _ Hfound).
    etrans; [apply length_filter|]. rewrite length_take. lia. }
  exists data, abstract, all, lead, found. split_and!; try done.
  - by rewrite Hrel.
  - lia.
  - intros ->. simpl in Hcount. destruct found; [|simpl in Hcount; lia].
    split; [done|]. rewrite app_nil_r. destruct (truthy abstract).
    + by destruct Hlead as (r & _ & ->).
    + by subst lead.
Qed.

Lemma related_topics_limit_witness :
  (_duckduckgo_try net_paris france 1 (World agent_keyless [])).1
    = inr [paris_record] ∧
  ∃ abstract lead,
    [paris_record] = if truthy abstract then lead
                     else [placeholder_result france].
Proof.
  assert ((_duckduckgo_try net_paris france 1 (World agent_keyless [])).1
          = inr [paris_record]) as Hrun by (vm_compute; reflexivity).
  split; [exact Hrun|].
  destruct (related_topics_limit net_paris france 1 (World agent_keyless [])
              [paris_record] ltac:(lia) Hrun)
    as (data & abstract & all & lead & found & _ & _ & _ & _ & _ & _ & _ & Hone).
  exists abstract, lead. apply Hone. reflexivity.
Defined.

Lemma truncated_short n (s : text) :
  (length s < n)%nat → truncated n s = s ++ lit "...".
Proof. intros H. rewrite truncated_take. by rewrite take_ge by lia. Qed.

(** Pairs related by a list relation whose left list passes a test. *)
Lemma Forall2_with_left {A B} (Q : A → Prop) (P : A → B → Prop) l k :
  Forall Q l → Forall2 P l k → Forall2 (λ x y, Q x ∧ P x y) l k.
Proof.
  intros HQ HP. induction HP as [|x y l k Hxy _ IH]; [constructor|].
  apply Forall_cons in HQ as [Hx HQ]. constructor; [done | by apply IH].
Qed.

(** C3: when the secondary provider's [try] block completes, its results
    are the optional abstract record followed by one record for each
    related topic of the response that the loop visits and that has a
    text, in the order of the response (or the placeholder when there is
    neither).  The snippet of the abstract record is the first
    min(len(s), 200) code points of the response's abstract s followed by
    '...'; the title and the snippet of the record of a topic are the first
    min(len(s), 50) and min(len(s), 200) code points of that topic's text s
    followed by '...'.  The cut counts code points, and a text shorter than
    the cut keeps all of them and still gets the '...'. *)
Theorem truncation_law net query num_results w rs :
  (_duckduckgo_try net query num_results w).1 = inr rs →
  ∃ data abstract all lead found,
    decoded (net (sent w) (duckduckgo_request query)) = inr data ∧
    py_get data "Abstract" VNone = inr abstract ∧
    py_get data "RelatedTopics" (VList []) ≫= py_iter = inr all ∧
    rs = match lead ++ found with
         | [] => [placeholder_result query]
         | results => results
         end ∧
    (if truthy abstract
     then ∃ s r, abstract = VStr s ∧ lead = [r] ∧
                 r !! "snippet" = Some (VStr (truncated 200 s)) ∧
                 r !! "source" = None
     else lead = []) ∧
    Forall2 (λ topic r, ∃ s,
               py_get topic "Text" VNone = inr (VStr s) ∧
               r !! "title" = Some (VStr (truncated 50 s)) ∧
               r !! "snippet" = Some (VStr (truncated 200 s)) ∧
               r !! "source" = Some (VStr (lit "DuckDuckGo")))
      (filter (λ t, topic_has_text t = true) (slice_to (num_results - 1) all))
      found ∧
    (∀ (n : nat) (s : text),
       truncated n s = take (Nat.min (length s) n) s ++ lit "..." ∧
       ((length s < n)%nat → truncated n s = s ++ lit "...")).
Proof.
  intros Hrun. rewrite _duckduckgo_try_eq in Hrun. simpl in Hrun.
  apply bind_inr in Hrun as (data & Hdata & Hrun).
  apply duckduckgo_results_inr in Hrun
    as (abstract & lead & related & sliced & topics & found
        & Habs & Hlead & Hrel & Hsl & Htop & Hfound & ->).
  destruct (py_iter_slice _ _ _ _ Hsl Htop) as (all & Hall & ->).
  exists data, abstract, all, lead, found.
  split_and!; [done | done | by rewrite Hrel | done | | |].
  - destruct (truthy abstract) eqn:Htruthy; [|done].
    destruct Hlead as (r & Hr & ->).
    apply abstract_result_inr in Hr as (title & s & link & Hs & ->).
    exists s. eexists. split_and!; try done.
    apply py_get_inr in Hs as (d & -> & Hs). simpl in Habs.
    injection Habs as <-.
    by destruct (dict_get d (lit "Abstract")) as [v|]; simpl in *.
  - eapply Forall2_impl.
    + apply (Forall2_with_left (λ t, topic_has_text t = true)); [|exact Hfound].
      apply Forall_forall. by intros t [? _]%list_elem_of_filter.
    + intros topic r [Hguard Hr]. simpl in Hr.
      apply topic_result_inr in Hr as (s & link & Hs & ->).
      exists s. split_and!; try done.
      apply py_get_inr in Hs as (d & -> & Hs). simpl in Hguard |- *. f_equal.
      by destruct (dict_get d (lit "Text")) as [v|]; simpl in *.
  - intros n s. split; [done | apply truncated_short].
Qed.

Lemma truncation_law_witness :
  (_duckduckgo_try net_paris france 5 (World agent_keyless [])).1
    = inr [paris_record; texas_record; hilton_record] ∧
  truncated 50 (lit "Paris Hilton") = lit "Paris Hilton" ++ lit "...".
Proof.
  assert ((_duckduckgo_try net_paris france 5 (World agent_keyless [])).1
          = inr [paris_record; texas_record; hilton_record]) as Hrun
    by (vm_compute; reflexivity).
  split; [exact Hrun|].
  destruct (truncation_law net_paris france 5 (World agent_keyless []) _ Hrun)
    as (data & abstract & all & lead & found & _ & _ & _ & _ & _ & _ & Hshort).
  apply Hshort. vm_compute. lia.
Defined.

(** The causes that make the secondary provider's [try] block raise: no
    response, an error status, an undecodable body, or a body of the wrong
    shape. *)
Lemma _duckduckgo_try_raises net query num_results w :
  let outcome := net (sent w) (duckduckgo_request query) in
  (∃ e, (_duckduckgo_try net query num_results w).1 = inl e) ↔
  outcome = None ∨
  (∃ r, outcome = Some r ∧ ok r = false) ∨
  (∃ r, outcome = Some r ∧ ok r = true ∧ body r = None) ∨
  (∃ r data e, outcome = Some r ∧ ok r = true ∧ body r = Some data ∧
               duckduckgo_results query num_results data = inl e).
Proof.
  rewrite _duckduckgo_try_eq. simpl.
  destruct (net _ _) as [[[] [data|]]|]; simpl.
  - destruct (duckduckgo_results _ _ _) as [e|rs] eqn:Hres.
    + split; [intros _ | by eauto].
      do 3 right. by exists (Response true (Some data)), data, e.
    + split; [by intros [e He]|].
      intros [H|[(r & H & Hok)|[(r & H & _ & Hb)|(r & d & e & H & _ & Hb & Hd)]]].
      * discriminate.
      * injection H as <-. discriminate.
      * injection H as <-. discriminate.
      * injection H as <-. injection Hb as <-. congruence.
  - split; [intros _ | by eauto]. right; right; left. by eexists.
  - split; [intros _ | by eauto]. right; left. by eexists.
  - split; [intros _ | by eauto]. right; left. by eexists.
  - split; [intros _ | by eauto]. by left.
Qed.

(** C4: when the secondary provider's [try] block raises, whatever the
    cause, the search returns exactly one record: title "Search: {query}",
    a snippet ending in the query, a link to a web search for the query
    with spaces turned into '+', and source 'Fallback'.  This holds both
    when the secondary provider is called directly (credentials missing)
    and when it is reached after the primary provider failed. *)
Theorem secondary_failure_fallback net query num_results w e :
  (_duckduckgo_try net query num_results w).1 = inl e →
  ∃ r,
    (_duckduckgo_search net query num_results w).1 = [r] ∧
    r !! "title" = Some (VStr (lit "Search: " ++ query)) ∧
    r !! "snippet" = Some (VStr (lit
      "Unable to fetch live search results. This would normally search for: "
      ++ query)) ∧
    r !! "link" = Some (VStr (lit "https://www.google.com/search?q=" ++
                              replace 32 43 query)) ∧
    r !! "source" = Some (VStr (lit "Fallback")) ∧
    dom r = {[ "title"; "snippet"; "link"; "source" ]} ∧
    (∀ w0,
       (w0 = w ∧ configured (search_api_key (self w0))
                 && configured (search_engine_id (self w0)) = false) ∨
       (configured (search_api_key (self w0))
          && configured (search_engine_id (self w0)) = true ∧
        ∃ e0, _google_try net query num_results w0 = (inl e0, w)) →
       (search_web net query num_results w0).1 = [r]).
Proof.
  intros Hrun. exists (fallback_result query).
  assert ((_duckduckgo_search net query num_results w).1 = [fallback_result query])
    as Hsearch.
  { unfold _duckduckgo_search, try_except.
    destruct (_duckduckgo_try _ _ _ _) as [[e'|rs] w'] eqn:Htry; [done|].
    discriminate Hrun. }
  split_and!; [done | reflexivity.. | |].
  - unfold fallback_result. rewrite !dom_insert_L, dom_singleton_L. set_solver.
  - intros w0 [[-> Hcfg]|[Hcfg (e0 & Hprimary)]]; unfold search_web; rewrite Hcfg.
    + done.
    + unfold _google_search, try_except. by rewrite Hprimary.
Qed.

Lemma secondary_failure_fallback_witness :
  ∃ r, (search_web net_down france 3 (World agent_keyless [])).1 = [r] ∧
       r !! "title" = Some (VStr (lit "Search: " ++ france)) ∧
       r !! "source" = Some (VStr (lit "Fallback")).
Proof.
  destruct (secondary_failure_fallback net_down france 3
              (World agent_keyless []) RequestException)
    as (r & _ & Htitle & _ & _ & Hsource & _ & Hweb).
  { vm_compute. reflexivity. }
  exists r. split_and!; [|exact Htitle|exact Hsource].
  apply Hweb. left. split; reflexivity.
Defined.




(** The requests one call of [_google_search] sends: the primary request,
    followed by the secondary request exactly when the primary call failed. *)
Lemma _google_search_sent net query num_results w :
  ∃ rest,
    sent (_google_search net query num_results w).2
      = sent w ++ google_request (self w) query num_results :: rest ∧
    (rest = [] ∨ rest = [duckduckgo_request query]).
Proof.
  rewrite _google_search_eq. simpl. destruct (_ ≫= _).
  - exists [duckduckgo_request query]. rewrite _duckduckgo_search_eq. simpl.
    rewrite <- app_assoc. eauto.
  - exists []. eauto.
Qed.

Lemma url_distinct : duckduckgo_url ≠ google_url.
Proof. discriminate. Qed.

(** C6: [search_web] runs the primary provider exactly when both the API
    key and the engine identifier are configured (present and non-empty),
    and then the first request it sends is the primary one; otherwise it
    runs the secondary provider directly, sends the secondary request only,
    and no request goes to the primary endpoint. *)
Theorem provider_selection net query num_results w :
  ∃ log,
    sent (search_web net query num_results w).2 = sent w ++ log ∧
    if configured (search_api_key (self w))
       && configured (search_engine_id (self w))
    then
      search_web net query num_results w = _google_search net query num_results w ∧
      ∃ rest, log = google_request (self w) query num_results :: rest
    else
      search_web net query num_results w
        = _duckduckgo_search net query num_results w ∧
      log = [duckduckgo_request query] ∧
      Forall (λ req, url req ≠ google_url) log.
Proof.
  unfold search_web. destruct (_ && _).
  - destruct (_google_search_sent net query num_results w) as (rest & Hsent & _).
    eexists. split; [exact Hsent|]. eauto.
  - exists [duckduckgo_request query]. rewrite _duckduckgo_search_eq. simpl.
    split_and!; try done. apply Forall_singleton, url_distinct.
Qed.

Lemma provider_selection_witness :
  sent (search_web net_paris france 3 (World agent_keyless [])).2
  = [duckduckgo_request france].
Proof.
  destruct (provider_selection net_paris france 3 (World agent_keyless []))
    as (log & Hsent & _ & -> & _).
  exact Hsent.
Defined.

(** The credentials count as configured only when present and non-empty. *)
Lemma configured_spec c : configured c = true ↔ ∃ s, c = Some s ∧ s ≠ [].
Proof.
  destruct c as [[|ch s]|]; simpl; split; try done.
  - by intros (s & [= <-] & ?).
  - intros _. by eexists.
  - by intros (s & ? & ?).
Qed.

(** C9: the one request [_google_search] sends to the primary endpoint has
    [num] equal to min(limit, 10), hence at most 10 whatever the limit,
    next to the key, the engine identifier and the query; the only other
    request it may send goes to the secondary endpoint. *)
Theorem primary_request_count_capped net query num_results w :
  ∃ req rest,
    sent (_google_search net query num_results w).2 = sent w ++ req :: rest ∧
    url req = google_url ∧
    params req !! "num" = Some (VInt (Z.min num_results 10)) ∧
    Z.min num_results 10 ≤ 10 ∧
    (num_results ≤ 10 → Z.min num_results 10 = num_results) ∧
    (10 ≤ num_results → Z.min num_results 10 = 10) ∧
    params req !! "q" = Some (VStr query) ∧
    params req !! "key" = Some (credential (search_api_key (self w))) ∧
    params req !! "cx" = Some (credential (search_engine_id (self w))) ∧
    Forall (λ r, url r ≠ google_url) rest.
Proof.
  destruct (_google_search_sent net query num_results w) as (rest & Hsent & Hrest).
  exists (google_request (self w) query num_results), rest.
  split_and!; try done; try lia.
  destruct Hrest as [->| ->]; [constructor|]. apply Forall_singleton, url_distinct.
Qed.

Lemma primary_request_count_capped_witness :
  ∃ req rest,
    sent (_google_search net_no_items france 50 (World agent_keyed [])).2
      = [] ++ req :: rest ∧
    params req !! "num" = Some (VInt 10).
Proof.
  destruct (primary_request_count_capped net_no_items france 50
              (World agent_keyed []))
    as (req & rest & Hsent & _ & Hnum & _ & _ & Hcap & _).
  exists req, rest. split; [exact Hsent|]. rewrite Hnum, Hcap; [done | lia].
Defined.

Section SynthesisFacts.
Variable str_of : value → text.

Lemma bullet_inr (r : record) title snippet :
  r !! "title" = Some title → r !! "snippet" = Some snippet →
  bullet str_of r = inr ([0x2022%N] ++ lit " " ++ format_value str_of title ++
                         lit ": " ++ format_value str_of snippet).
Proof. intros Ht Hs. unfold bullet, getitem. by rewrite Ht, Hs. Qed.

(** The comprehension of line 134 completes when every record has a
    title and a snippet, with one line per record, in order. *)
Lemma bullets_inr (rs : list record) :
  Forall (λ r, is_Some (r !! "title") ∧ is_Some (r !! "snippet")) rs →
  ∃ lines,
    mapM (bullet str_of) rs = inr lines ∧
    Forall2 (λ r line, bullet str_of r = inr line) rs lines.
Proof.
  induction 1 as [|r rest [[title Ht] [snippet Hs]] _ (lines & Hlines & Hall)].
  - exists []. split; [done | constructor].
  - eexists (_ :: lines). simpl.
    rewrite (bullet_inr r title snippet Ht Hs). simpl. rewrite Hlines. simpl.
    split; [done|]. constructor; [|done]. by apply bullet_inr.
Qed.

(** The loop of lines 114-117 completes on readable records. *)
Lemma context_loop_inr (rs : list record) i context :
  Forall readable rs → ∃ c, context_loop str_of i rs context = inr c.
Proof.
  intros Hall. revert i context.
  induction Hall as [|r rest ([title Ht] & [snippet Hs] & [link Hl]) _ IH];
    intros i context; simpl.
  - by eexists.
  - unfold getitem. rewrite Ht, Hs, Hl. simpl. apply IH.
Qed.

End SynthesisFacts.

Lemma join_infix sep (lines : list text) line :
  line ∈ lines → ∃ pre post, join sep lines = pre ++ line ++ post.
Proof.
  induction lines as [|l rest IH]; [by inversion 1|].
  intros [->|Hin]%elem_of_cons.
  - destruct rest as [|l' rest'].
    + exists [], []. simpl. by rewrite app_nil_r.
    + exists [], (sep ++ join sep (l' :: rest')). done.
  - destruct (IH Hin) as (pre & post & Hjoin).
    destruct rest as [|l' rest']; [by inversion Hin|].
    exists (l ++ sep ++ pre), post.
    change (join sep (l :: l' :: rest')) with (l ++ sep ++ join sep (l' :: rest')).
    rewrite Hjoin. by rewrite <- !app_assoc.
Qed.

(** C7: whenever the [try] block of [generate_response] raises, for any
    reason, and every input record has a title and a snippet, the method
    returns the error marker with the exception's text, the heading line,
    and one bullet line "title: snippet" per input record, joined by line
    feeds in input order; that text is never empty, not even for an empty
    list of records, and contains every record's line.  On records that
    also have a link the [try] block's outcome is the outcome of the model
    call, so a failing completion is such a raise. *)
Theorem degraded_response_on_failure str_of me query (rs : list record) e :
  Forall (λ r, is_Some (r !! "title") ∧ is_Some (r !! "snippet")) rs →
  generate_try str_of me query rs = inl e →
  ∃ lines answer,
    Forall2 (λ r line, ∃ title snippet,
               r !! "title" = Some title ∧ r !! "snippet" = Some snippet ∧
               line = [0x2022%N] ++ lit " " ++ format_value str_of title ++
                      lit ": " ++ format_value str_of snippet) rs lines ∧
    generate_response str_of me query rs = inr answer ∧
    answer = [0x274C%N] ++ lit " Error generating response: " ++ str_exn e ++
             [LF; LF] ++ lit "Here are the raw search results:" ++ [LF] ++
             join [LF] lines ∧
    answer ≠ [] ∧
    Forall (λ line, ∃ pre post, answer = pre ++ line ++ post) lines ∧
    (Forall readable rs →
     ∃ context, generate_try str_of me query rs
                = model me (prompt_of query context)).
Proof.
  intros Hkeys Hfail.
  destruct (bullets_inr str_of rs Hkeys) as (lines & Hlines & Hall).
  exists lines. eexists. split_and!; [| |reflexivity| | |].
  - clear Hlines Hfail. induction Hall as [|r line ? ? Hr _ IH]; [constructor|].
    apply Forall_cons in Hkeys as [[[title Ht] [snippet Hs]] Hkeys].
    constructor; [|by apply IH].
    rewrite (bullet_inr str_of r title snippet Ht Hs) in Hr.
    injection Hr as <-. eauto.
  - unfold generate_response, degraded_response. rewrite Hfail, Hlines.
    cbv [mbind sum_bind mret sum_ret]. f_equal. by rewrite <- !app_assoc.
  - done.
  - apply Forall_forall. intros line Hin.
    destruct (join_infix [LF] lines line Hin) as (pre & post & ->).
    exists ([0x274C%N] ++ lit " Error generating response: " ++ str_exn e ++
            [LF; LF] ++ lit "Here are the raw search results:" ++ [LF] ++ pre),
           post.
    by rewrite <- !app_assoc.
  - intros Hread. unfold generate_try.
    destruct (context_loop_inr str_of rs 1
                (lit "Here are the search results: " ++ [LF; LF]) Hread)
      as (context & ->).
    by exists context.
Qed.

Lemma degraded_response_on_failure_witness :
  generate_try str_plain agent_keyed france [paris_record; texas_record]
    = inl (CompletionError (lit "quota exceeded")) ∧
  ∃ answer,
    generate_response str_plain agent_keyed france [paris_record; texas_record]
      = inr answer ∧
    answer ≠ [].
Proof.
  assert (generate_try str_plain agent_keyed france [paris_record; texas_record]
          = inl (CompletionError (lit "quota exceeded"))) as Hfail
    by (vm_compute; reflexivity).
  split; [exact Hfail|].
  assert (Forall (λ r : record, is_Some (r !! "title") ∧ is_Some (r !! "snippet"))
            [paris_record; texas_record]) as Hkeys
    by (repeat constructor; eexists; vm_compute; reflexivity).
  destruct (degraded_response_on_failure str_plain agent_keyed france
              [paris_record; texas_record] _ Hkeys Hfail)
    as (lines & answer & _ & Hanswer & _ & Hne & _).
  exists answer. split; [exact Hanswer | exact Hne].
Defined.

(** The degraded text for the two Paris records, and for no record at all. *)
Example degraded_response_paris :
  generate_response str_plain agent_keyed france [paris_record; texas_record]
  = inr ([0x274C%N] ++ lit " Error generating response: quota exceeded" ++
         [LF; LF] ++ lit "Here are the raw search results:" ++ [LF] ++
         [0x2022%N] ++ lit " Paris: Paris is the capital of France...." ++ [LF] ++
         [0x2022%N] ++ lit " Paris, Texas...: Paris, Texas...").
Proof. vm_compute. reflexivity. Qed.

Example degraded_response_empty_list :
  generate_response str_plain agent_keyed france []
  = inr ([0x274C%N] ++ lit " Error generating response: quota exceeded" ++
         [LF; LF] ++ lit "Here are the raw search results:" ++ [LF]).
Proof. vm_compute. reflexivity. Qed.

(** Against a deterministic network the results of a search depend on the
    agent, the query and the limit only, not on the requests sent before. *)
Lemma search_web_history net query num_results w w' :
  deterministic net → self w = self w' →
  (search_web net query num_results w).1 = (search_web net query num_results w').1.
Proof.
  intros Hdet Hself. unfold search_web. rewrite <- Hself.
  destruct (_ && _).
  - rewrite !_google_search_eq. simpl. rewrite <- Hself.
    rewrite (Hdet (sent w) (sent w')).
    destruct (_ ≫= google_results); [|done].
    rewrite !_duckduckgo_search_eq. simpl.
    by rewrite (Hdet (sent w ++ [google_request (self w) query num_results])
                     (sent w' ++ [google_request (self w) query num_results])).
  - rewrite !_duckduckgo_search_eq. simpl. by rewrite (Hdet (sent w) (sent w')).
Qed.

(** C8: against a deterministic network, a second [search_web] with the
    same query and limit, run in the world the first one left, returns the
    same list of records; a search leaves the agent's fields as they were
    and the only thing it changes is the log of requests, which its result
    does not depend on. *)
Theorem search_web_idempotent net query num_results w :
  deterministic net →
  let first := search_web net query num_results w in
  let second := search_web net query num_results first.2 in
  second.1 = first.1 ∧
  self first.2 = self w ∧
  self second.2 = self w ∧
  (∀ w', self w' = self w → (search_web net query num_results w').1 = first.1).
Proof.
  intros Hdet first second. subst first second.
  assert (self (search_web net query num_results w).2 = self w) as Hself
    by apply search_web_self.
  split_and!.
  - by apply search_web_history.
  - exact Hself.
  - by rewrite search_web_self.
  - intros w' Hw'. by apply search_web_history.
Qed.

Lemma net_paris_deterministic : deterministic net_paris.
Proof. intros h h' req. reflexivity. Qed.

Lemma search_web_idempotent_witness :
  let first := search_web net_paris france 3
                 (World agent_keyed []) in
  (search_web net_paris france 3 first.2).1 = first.1 ∧
  length first.1 = 2%nat.
Proof.
  intros first.
  destruct (search_web_idempotent net_paris france 3 (World agent_keyed [])
              net_paris_deterministic) as (Hsame & _).
  split; [exact Hsame|]. vm_compute. reflexivity.
Defined.

(** C10: every record [search_web] returns has the keys 'title', 'snippet'
    and 'link', whichever path produced it, so the context loop and the
    bullet list of [generate_response] complete on the results of a search
    and the method returns text; each of the five shapes has those three
    keys, and the abstract-derived shape is the only one without 'source':
    a returned record without it is abstract-derived. *)
Theorem produced_records_readable net str_of me query asked num_results w :
  let results := (search_web net query num_results w).1 in
  Forall (λ r, readable r ∧
               (r !! "source" = None →
                ∃ data, abstract_result query data = inr r)) results ∧
  (∀ data r, abstract_result query data = inr r →
             readable r ∧ r !! "source" = None) ∧
  (∀ item r, google_result item = inr r →
             readable r ∧ r !! "source" = Some (VStr (lit "Google"))) ∧
  (∀ topic r, topic_result topic = inr r →
              readable r ∧ r !! "source" = Some (VStr (lit "DuckDuckGo"))) ∧
  (readable (placeholder_result query) ∧
   placeholder_result query !! "source" = Some (VStr (lit "DuckDuckGo"))) ∧
  (readable (fallback_result query) ∧
   fallback_result query !! "source" = Some (VStr (lit "Fallback"))) ∧
  (∀ i context, ∃ c, context_loop str_of i results context = inr c) ∧
  (∃ lines, mapM (bullet str_of) results = inr lines) ∧
  (∃ answer, generate_response str_of me asked results = inr answer).
Proof.
  intros results.
  assert (Forall (produced query) results) as Hprod by apply search_web_produced.
  assert (Forall readable results) as Hread.
  { eapply Forall_impl; [exact Hprod|]. apply produced_readable. }
  assert (∃ lines, mapM (bullet str_of) results = inr lines) as Hlines.
  { destruct (bullets_inr str_of results) as (lines & Hlines & _); [|by eauto].
    eapply Forall_impl; [exact Hread|]. by intros r (? & ? & _). }
  split_and!.
  - eapply Forall_impl; [exact Hprod|]. intros r Hr.
    split; [by eapply produced_readable|].
    intros Hnone. apply produced_source in Hr. by rewrite Hnone in Hr.
  - intros data r Hr. split; [by eapply produced_readable, produced_abstract|].
    by apply abstract_result_inr in Hr as (? & ? & ? & _ & ->).
  - intros item r Hr. split; [by eapply (produced_readable query), produced_google|].
    by apply google_result_inr in Hr as (? & ? & ? & ->).
  - intros topic r Hr. split; [by eapply (produced_readable query), produced_topic|].
    by apply topic_result_inr in Hr as (? & ? & _ & ->).
  - by eapply produced_readable, produced_placeholder.
  - done.
  - by eapply produced_readable, produced_fallback.
  - done.
  - intros i context. by apply context_loop_inr.
  - exact Hlines.
  - unfold generate_response. destruct (generate_try _ _ _ _) as [e|answer]; [|by eauto].
    unfold degraded_response. destruct Hlines as (lines & ->). by eexists.
Qed.

Lemma produced_records_readable_witness :
  ∃ answer,
    generate_response str_plain agent_keyed france
      (search_web net_paris france 3 (World agent_keyed [])).1
    = inr answer.
Proof.
  apply (produced_records_readable net_paris str_plain agent_keyed
           france france 3
           (World agent_keyed [])).
Defined.

(** ** Further properties of the providers *)

Lemma google_result_dict d :
  google_result (VDict d)
  = inr {[ "title" := default (VStr []) (dict_get d (lit "title"));
           "snippet" := default (VStr []) (dict_get d (lit "snippet"));
           "link" := default (VStr []) (dict_get d (lit "link"));
           "source" := VStr (lit "Google") ]}.
Proof. reflexivity. Qed.

Lemma google_result_not_dict item :
  ¬ is_dict item → google_result item = inl AttributeError.
Proof. by destruct item. Qed.

(** The loop of the primary provider on well-formed and on ill-formed items. *)
Lemma google_loop_dicts items acc :
  Forall is_dict items →
  ∃ new, google_loop items acc = inr (acc ++ new) ∧
         Forall2 (λ item r, google_result item = inr r) items new.
Proof.
  intros Hall. revert acc.
  induction Hall as [|item rest Hitem _ IH]; intros acc; simpl.
  - exists []. by rewrite app_nil_r.
  - destruct item as [| | | | |l|d]; try done. rewrite google_result_dict. simpl.
    destruct (IH (acc ++ [ {[ "title" := default (VStr []) (dict_get d (lit "title"));
           "snippet" := default (VStr []) (dict_get d (lit "snippet"));
           "link" := default (VStr []) (dict_get d (lit "link"));
           "source" := VStr (lit "Google") ]} ])) as (new & -> & Hnew).
    eexists (_ :: new). rewrite <- app_assoc. split; [done|].
    constructor; [apply google_result_dict | done].
Qed.

Lemma google_loop_not_dict items acc :
  Exists (λ item, ¬ is_dict item) items →
  google_loop items acc = inl AttributeError.
Proof.
  intros Hex. revert acc.
  induction Hex as [item rest Hitem|item rest _ IH]; intros acc; simpl.
  - by rewrite google_result_not_dict.
  - destruct item as [| | | | |l|d]; try done. rewrite google_result_dict. simpl. apply IH.
Qed.

Lemma search_web_primary net query num_results w :
  configured (search_api_key (self w)) = true →
  configured (search_engine_id (self w)) = true →
  search_web net query num_results w =
    let req := google_request (self w) query num_results in
    match decoded (net (sent w) req) ≫= google_results with
    | inr results => (results, after w req)
    | inl _ => _duckduckgo_search net query num_results (after w req)
    end.
Proof.
  intros Hkey Hcx. unfold search_web. rewrite Hkey, Hcx. apply _google_search_eq.
Qed.

(** X1: when both credentials are configured and the primary provider
    answers with a body whose 'items' is a list of objects, [search_web]
    sends that one request and returns one record per item, in the
    provider's order and however many there are (the limit does not cut
    them): each record has exactly the keys title, snippet, link and
    source, the first three copied from the item, or the empty text where
    the item has no such key, and source 'Google'. *)
Theorem primary_items_mapped net query num_results w d items :
  configured (search_api_key (self w)) = true →
  configured (search_engine_id (self w)) = true →
  decoded (net (sent w) (google_request (self w) query num_results))
    = inr (VDict d) →
  dict_get d (lit "items") = Some (VList items) →
  Forall is_dict items →
  ∃ rs,
    search_web net query num_results w
      = (rs, after w (google_request (self w) query num_results)) ∧
    length rs = length items ∧
    Forall2 (λ item r,
      ∃ fields, item = VDict fields ∧
        r !! "title" = Some (default (VStr []) (dict_get fields (lit "title"))) ∧
        r !! "snippet" = Some (default (VStr []) (dict_get fields (lit "snippet"))) ∧
        r !! "link" = Some (default (VStr []) (dict_get fields (lit "link"))) ∧
        r !! "source" = Some (VStr (lit "Google")) ∧
        dom r = {[ "title"; "snippet"; "link"; "source" ]}) items rs.
Proof.
  intros Hkey Hcx Hbody Hitems Hdicts.
  destruct (google_loop_dicts items [] Hdicts) as (rs & Hloop & Hall).
  exists rs. rewrite search_web_primary by done. simpl. rewrite Hbody. simpl.
  unfold google_results. simpl. rewrite Hitems. simpl. rewrite Hloop. simpl.
  split_and!; [done | symmetry; by eapply Forall2_length |].
  eapply Forall2_impl; [exact Hall|]. intros item r Hr.
  destruct item as [| | | | |l|fields]; try done.
  rewrite google_result_dict in Hr. injection Hr as <-.
  exists fields. by split_and!.
Qed.

Lemma primary_items_mapped_witness :
  ∃ rs, search_web net_two_items france 1 (World agent_keyed [])
          = (rs, after (World agent_keyed []) (google_request agent_keyed france 1)) ∧
        length rs = 2%nat.
Proof.
  destruct (primary_items_mapped net_two_items france 1 (World agent_keyed [])
    [(lit "items",
          VList [VDict [(lit "title", VStr (lit "Paris"));
                        (lit "snippet", VStr (lit "Capital of France"));
                        (lit "link", VStr (lit "https://paris.example"))];
                 VDict [(lit "title", VStr (lit "France"));
                        (lit "link", VStr (lit "https://france.example"))]])]
    [VDict [(lit "title", VStr (lit "Paris"));
                        (lit "snippet", VStr (lit "Capital of France"));
                        (lit "link", VStr (lit "https://paris.example"))];
                 VDict [(lit "title", VStr (lit "France"));
                        (lit "link", VStr (lit "https://france.example"))]])
    as (rs & Hweb & Hlen & _).
  - reflexivity.
  - reflexivity.
  - vm_compute. reflexivity.
  - vm_compute. reflexivity.
  - repeat constructor.
  - exists rs. split; [exact Hweb | exact Hlen].
Defined.

(** X2: the primary provider's results are all or nothing.  If 'items' is a
    list in which some element is not an object, the primary call counts as
    failed whatever the other items are, and [search_web] returns what the
    secondary provider returns for the same query and limit. *)
Theorem primary_bad_item_discards_all net query num_results w d items :
  configured (search_api_key (self w)) = true →
  configured (search_engine_id (self w)) = true →
  decoded (net (sent w) (google_request (self w) query num_results))
    = inr (VDict d) →
  dict_get d (lit "items") = Some (VList items) →
  Exists (λ item, ¬ is_dict item) items →
  google_results (VDict d) = inl AttributeError ∧
  search_web net query num_results w
    = _duckduckgo_search net query num_results
        (after w (google_request (self w) query num_results)).
Proof.
  intros Hkey Hcx Hbody Hitems Hbad.
  assert (google_results (VDict d) = inl AttributeError) as Hres.
  { unfold google_results. simpl. rewrite Hitems. simpl.
    by apply google_loop_not_dict. }
  split; [exact Hres|].
  rewrite search_web_primary by done. simpl. rewrite Hbody. simpl. by rewrite Hres.
Qed.

Lemma primary_bad_item_discards_all_witness :
  (search_web net_bad_item france 5 (World agent_keyed [])).1
  = [fallback_result france].
Proof.
  destruct (primary_bad_item_discards_all net_bad_item france 5
              (World agent_keyed [])
              [(lit "items", VList [VDict [(lit "title", VStr (lit "Paris"))]; VInt 7])]
              [VDict [(lit "title", VStr (lit "Paris"))]; VInt 7])
    as (_ & ->).
  - reflexivity.
  - reflexivity.
  - vm_compute. reflexivity.
  - vm_compute. reflexivity.
  - right. left. simpl. tauto.
  - vm_compute. reflexivity.
Defined.

Lemma google_results_empty data :
  google_results data = inr [] ↔
  ∃ d, data = VDict d ∧
       (default (VList []) (dict_get d (lit "items")) = VList [] ∨
        default (VList []) (dict_get d (lit "items")) = VStr [] ∨
        default (VList []) (dict_get d (lit "items")) = VDict []).
Proof.
  unfold google_results. split.
  - intros H. apply bind_inr in H as (v & Hv & H).
    apply bind_inr in H as (items & Hiter & H).
    apply py_get_inr in Hv as (d & -> & ->). exists d. split; [done|].
    apply google_loop_inr in H as (new & Hnew & Hall). simpl in Hnew. subst new.
    apply Forall2_nil_inv_r in Hall as ->.
    destruct (default _ _) as [| | | |[|c s]|[|x l]|[|kv l]]; simpl in Hiter;
      try discriminate; auto.
  - intros (d & -> & Hitems). simpl.
    by destruct Hitems as [->|[->| ->]].
Qed.

(** X3: [search_web] returns the empty list exactly when both credentials
    are configured and the primary provider's body is an object whose
    'items' is missing or is an empty list (or an empty text or object);
    every other run, in particular every run that reaches the secondary
    provider, returns at least one record. *)
Theorem empty_results_iff net query num_results w :
  (search_web net query num_results w).1 = [] ↔
  configured (search_api_key (self w)) = true ∧
  configured (search_engine_id (self w)) = true ∧
  ∃ d, decoded (net (sent w) (google_request (self w) query num_results))
         = inr (VDict d) ∧
       (default (VList []) (dict_get d (lit "items")) = VList [] ∨
        default (VList []) (dict_get d (lit "items")) = VStr [] ∨
        default (VList []) (dict_get d (lit "items")) = VDict []).
Proof.
  split.
  - intros H. apply search_web_empty in H as (Hkey & Hcx & data & Hdata & Hres).
    apply google_results_empty in Hres as (d & -> & Hitems). eauto 6.
  - intros (Hkey & Hcx & d & Hdata & Hitems).
    rewrite search_web_primary by done. simpl. rewrite Hdata. simpl.
    assert (google_results (VDict d) = inr []) as ->
      by (apply google_results_empty; eauto).
    done.
Qed.

Lemma empty_results_iff_witness :
  ∃ d, decoded (net_no_items [] (google_request agent_keyed france 5))
       = inr (VDict d).
Proof.
  destruct (proj1 (empty_results_iff net_no_items france 5 (World agent_keyed [])))
    as (_ & _ & d & Hd & _).
  - vm_compute. reflexivity.
  - exists d. exact Hd.
Defined.

(** The records a completed run of the secondary provider is made of: the
    optional abstract record, then the records of the visited topics that
    have a text, the visited topics being a slice of the related topics. *)
Lemma secondary_results_anatomy query num_results data rs :
  duckduckgo_results query num_results data = inr rs →
  ∃ abstract all lead found,
    py_get data "Abstract" VNone = inr abstract ∧
    py_get data "RelatedTopics" (VList []) ≫= py_iter = inr all ∧
    (if truthy abstract
     then ∃ r, abstract_result query data = inr r ∧ lead = [r]
     else lead = []) ∧
    Forall2 (λ topic r, topic_result topic = inr r)
      (filter (λ t, topic_has_text t = true) (slice_to (num_results - 1) all))
      found ∧
    rs = match lead ++ found with
         | [] => [placeholder_result query]
         | results => results
         end.
Proof.
  intros H. apply duckduckgo_results_inr in H
    as (abstract & lead & related & sliced & topics & found
        & Habs & Hlead & Hrel & Hsl & Htop & Hfound & ->).
  destruct (py_iter_slice _ _ _ _ Hsl Htop) as (all & Hall & ->).
  exists abstract, all, lead, found. split_and!; try done. by rewrite Hrel.
Qed.

(** X4: for a limit of at least 1 the secondary provider returns at least
    one and at most [limit] records, whatever the network does: at most one
    abstract record and [limit - 1] topic records, or the single
    placeholder, or the single Fallback record. *)
Theorem secondary_result_count net query num_results w :
  1 ≤ num_results →
  (1 ≤ length (_duckduckgo_search net query num_results w).1)%nat ∧
  Z.of_nat (length (_duckduckgo_search net query num_results w).1) ≤ num_results.
Proof.
  intros Hlimit. rewrite _duckduckgo_search_eq. simpl.
  destruct (_ ≫= _) as [e|rs] eqn:Hrun; [simpl; lia|].
  apply bind_inr in Hrun as (data & _ & Hrun).
  apply secondary_results_anatomy in Hrun
    as (abstract & all & lead & found & _ & _ & Hlead & Hfound & ->).
  assert (length lead ≤ 1)%nat as Hl.
  { destruct (truthy abstract); [destruct Hlead as (r & _ & ->) | subst lead]; simpl; lia. }
  assert (length found ≤ Z.to_nat (num_results - 1))%nat as Hf.
  { rewrite <- (Forall2_length _ _ _ Hfound).
    etrans; [apply length_filter|]. unfold slice_to.
    destruct (Z.leb_spec 0 (num_results - 1)); [|lia].
    rewrite length_take. lia. }
  destruct (lead ++ found) as [|r rest] eqn:Hcat; [simpl; lia|].
  rewrite <- Hcat, length_app. split; [|lia].
  pose proof (f_equal length Hcat) as Hlen.
  rewrite length_app in Hlen. simpl in Hlen. lia.
Qed.

Lemma secondary_result_count_witness :
  (1 ≤ length (_duckduckgo_search net_paris france 2 (World agent_keyless [])).1)%nat ∧
  Z.of_nat (length (_duckduckgo_search net_paris france 2
                      (World agent_keyless [])).1) ≤ 2.
Proof.
  apply (secondary_result_count net_paris france 2 (World agent_keyless [])). lia.
Defined.

(** X5: a limit of 0 or less does not switch the related topics off.  The
    slice bound [limit - 1] is then negative and counts from the end: the
    loop visits all related topics but the last [1 - limit] ones. *)
Theorem nonpositive_limit_drops_from_end net query num_results w rs :
  num_results ≤ 0 →
  (_duckduckgo_try net query num_results w).1 = inr rs →
  ∃ data all lead found,
    decoded (net (sent w) (duckduckgo_request query)) = inr data ∧
    py_get data "RelatedTopics" (VList []) ≫= py_iter = inr all ∧
    Forall2 (λ topic r, topic_result topic = inr r)
      (filter (λ t, topic_has_text t = true)
              (take (length all - Z.to_nat (1 - num_results)) all)) found ∧
    (length lead ≤ 1)%nat ∧
    rs = match lead ++ found with
         | [] => [placeholder_result query]
         | results => results
         end.
Proof.
  intros Hlimit Hrun. rewrite _duckduckgo_try_eq in Hrun. simpl in Hrun.
  apply bind_inr in Hrun as (data & Hdata & Hrun).
  apply secondary_results_anatomy in Hrun
    as (abstract & all & lead & found & _ & Hall & Hlead & Hfound & ->).
  exists data, all, lead, found. split_and!; try done.
  - unfold slice_to in Hfound. destruct (Z.leb_spec 0 (num_results - 1)); [lia|].
    by replace (- (num_results - 1)) with (1 - num_results) in Hfound by lia.
  - destruct (truthy abstract); [destruct Hlead as (r & _ & ->) | subst lead]; simpl; lia.
Qed.

Lemma nonpositive_limit_drops_from_end_witness :
  (_duckduckgo_try net_paris france 0 (World agent_keyless [])).1
  = inr [paris_record; texas_record] ∧
  ∃ found : list record, (length found ≤ 2)%nat.
Proof.
  assert ((_duckduckgo_try net_paris france 0 (World agent_keyless [])).1
          = inr [paris_record; texas_record]) as Hrun by (vm_compute; reflexivity).
  split; [exact Hrun|].
  destruct (nonpositive_limit_drops_from_end net_paris france 0
              (World agent_keyless []) _ ltac:(lia) Hrun)
    as (data & all & lead & found & Hdata & Hall & Hfound & _).
  exists found. injection Hdata as <-. injection Hall as <-.
  rewrite <- (Forall2_length _ _ _ Hfound).
  etrans; [apply length_filter|]. rewrite length_take. simpl. lia.
Defined.

Lemma truncated_length n (s : text) : (length (truncated n s) ≤ n + 3)%nat.
Proof.
  rewrite truncated_take, length_app, length_take.
  change (length (lit "...")) with 3%nat. lia.
Qed.

(** X6: the secondary provider bounds what it copies from the response.  In
    a completed run every record other than the placeholder has a text
    snippet of at most 203 code points, and every such record that carries
    a source tag (a related-topic record) has a text title of at most 53. *)
Theorem secondary_text_bounds net query num_results w rs r :
  (_duckduckgo_try net query num_results w).1 = inr rs →
  r ∈ rs →
  r ≠ placeholder_result query →
  ∃ snippet,
    r !! "snippet" = Some (VStr snippet) ∧ (length snippet ≤ 203)%nat ∧
    (is_Some (r !! "source") →
     ∃ title, r !! "title" = Some (VStr title) ∧ (length title ≤ 53)%nat).
Proof.
  intros Hrun Hr Hne. rewrite _duckduckgo_try_eq in Hrun. simpl in Hrun.
  apply bind_inr in Hrun as (data & _ & Hrun).
  apply secondary_results_anatomy in Hrun
    as (abstract & all & lead & found & _ & _ & Hlead & Hfound & ->).
  assert (r ∈ lead ∨ r ∈ found) as [Hin|Hin].
  { destruct (lead ++ found) as [|r0 rest] eqn:Hcat.
    - by apply list_elem_of_singleton in Hr.
    - rewrite <- Hcat in Hr. by apply elem_of_app in Hr. }
  - destruct (truthy abstract); [|by subst lead; inversion Hin].
    destruct Hlead as (r' & Hr' & ->). apply list_elem_of_singleton in Hin as ->.
    apply abstract_result_inr in Hr' as (title & s & link & _ & ->).
    exists (truncated 200 s). split_and!; [done | apply truncated_length |].
    by intros [? ?].
  - apply list_elem_of_lookup in Hin as (i & Hi).
    destruct (Forall2_lookup_r _ _ _ _ _ Hfound Hi) as (topic & _ & Htopic).
    apply topic_result_inr in Htopic as (s & link & _ & ->).
    exists (truncated 200 s). split_and!; [done | apply truncated_length |].
    intros _. exists (truncated 50 s). split; [done | apply truncated_length].
Qed.

Lemma secondary_text_bounds_witness :
  ∃ title, texas_record !! "title" = Some (VStr title) ∧ (length title ≤ 53)%nat.
Proof.
  assert ((_duckduckgo_try net_paris france 2 (World agent_keyless [])).1
          = inr [paris_record; texas_record]) as Hrun by (vm_compute; reflexivity).
  destruct (secondary_text_bounds net_paris france 2 (World agent_keyless [])
              _ texas_record Hrun) as (snippet & _ & _ & Htitle).
  - right. left.
  - intros H. discriminate (f_equal (λ m : record, m !! "link") H).
  - apply Htitle. eexists. vm_compute. reflexivity.
Defined.

(** X7: a response of the wrong shape costs the whole answer of the
    secondary provider.  If the body's 'Abstract' is truthy but not text
    (a number, a list, an object), or if 'RelatedTopics' is present and is
    neither a list nor a text (null, say), the [try] block raises and
    [_duckduckgo_search] returns the single Fallback record, whatever else
    the body holds. *)
Theorem secondary_ill_typed_body net query num_results w data :
  decoded (net (sent w) (duckduckgo_request query)) = inr data →
  (∃ abstract, py_get data "Abstract" VNone = inr abstract ∧
               truthy abstract = true ∧ ¬ is_text abstract) ∨
  (∃ related, py_get data "RelatedTopics" (VList []) = inr related ∧
              ¬ is_text related ∧ (∀ l, related ≠ VList l)) →
  duckduckgo_results query num_results data = inl TypeError ∧
  (_duckduckgo_search net query num_results w).1 = [fallback_result query].
Proof.
  intros Hdata Hbad.
  assert (duckduckgo_results query num_results data = inl TypeError) as Hres.
  { unfold duckduckgo_results.
    destruct Hbad as [(abstract & Habs & Htruthy & Htext)
                     |(related & Hrel & Htext & Hlist)].
    - rewrite Habs. simpl. rewrite Htruthy. unfold abstract_result.
      apply py_get_inr in Habs as (d & -> & ->). simpl.
      destruct (dict_get d (lit "Abstract")) as [v|]; [|done]. simpl in *.
      by destruct v.
    - destruct (py_get data "Abstract" VNone) as [e|abstract] eqn:Habs.
      { apply py_get_inr in Hrel as (d & -> & _). done. }
      simpl.
      assert (py_slice_to (num_results - 1) related = inl TypeError) as Hslice.
      { destruct related; try done. by destruct (Hlist l). }
      destruct (truthy abstract).
      + destruct (abstract_result query data) as [e|r] eqn:Hr; simpl.
        * apply py_get_inr in Hrel as (d & -> & _).
          unfold abstract_result in Hr. simpl in Hr.
          destruct (default (VStr []) (dict_get d (lit "Abstract"))); try done;
            simpl in Hr; congruence.
        * rewrite Hrel. simpl. by rewrite Hslice.
      + simpl. rewrite Hrel. simpl. by rewrite Hslice. }
  split; [exact Hres|].
  rewrite _duckduckgo_search_eq. simpl. rewrite Hdata. simpl. by rewrite Hres.
Qed.

Lemma secondary_ill_typed_body_witness :
  (search_web net_numeric_abstract france 5 (World agent_keyless [])).1
  = [fallback_result france].
Proof.
  apply (secondary_ill_typed_body net_numeric_abstract france 5
           (World agent_keyless []) body_numeric_abstract).
  - reflexivity.
  - left. exists (VInt 42). split_and!; [reflexivity | reflexivity | ].
    intros H. exact H.
Defined.

(** ** What a search sends *)

Lemma replace_length old new (s : text) : length (replace old new s) = length s.
Proof. unfold replace. apply length_fmap. Qed.

Lemma replace_lookup old new (s : text) i c :
  s !! i = Some c →
  replace old new s !! i = Some (if N.eqb c old then new else c).
Proof. intros H. unfold replace. by rewrite list_lookup_fmap, H. Qed.

Lemma replace_absent old new (s : text) : old ≠ new → old ∉ replace old new s.
Proof.
  intros Hne Hin. unfold replace in Hin.
  apply list_elem_of_fmap in Hin as (c & Hc & _).
  destruct (N.eqb_spec c old); congruence.
Qed.

Lemma absent_by_test (c : N) (s : text) :
  forallb (λ c', negb (N.eqb c' c)) s = true → c ∉ s.
Proof.
  induction s as [|c' s IH]; simpl; [by intros _ ?%elem_of_nil|].
  intros [Hc Hs]%andb_true_iff [->|Hin]%elem_of_cons.
  - by rewrite N.eqb_refl in Hc.
  - by apply IH.
Qed.

(** X8: every request of one [search_web] goes to one of the two provider
    endpoints and carries the query unchanged as 'q'; a search sends one
    request or two, after the ones already sent, and the search key and the
    engine identifier travel only to the primary endpoint: the secondary
    request has exactly the parameters q, format, no_html and
    skip_disambig. *)
Theorem requests_of_a_search net query num_results w :
  ∃ log,
    sent (search_web net query num_results w).2 = sent w ++ log ∧
    (1 ≤ length log ≤ 2)%nat ∧
    Forall (λ req,
      params req !! "q" = Some (VStr query) ∧
      (url req = google_url ∨
       url req = duckduckgo_url ∧
       params req !! "key" = None ∧ params req !! "cx" = None ∧
       dom (params req) = {[ "q"; "format"; "no_html"; "skip_disambig" ]})) log.
Proof.
  assert (∀ req, req = duckduckgo_request query →
    params req !! "q" = Some (VStr query) ∧
    (url req = google_url ∨
     url req = duckduckgo_url ∧
     params req !! "key" = None ∧ params req !! "cx" = None ∧
     dom (params req) = {[ "q"; "format"; "no_html"; "skip_disambig" ]}))
    as Hsecondary.
  { intros req ->. split; [done|]. right. by split_and!. }
  unfold search_web. destruct (_ && _).
  - destruct (_google_search_sent net query num_results w)
      as (rest & Hsent & Hrest).
    eexists. split; [exact Hsent|].
    split; [destruct Hrest as [->| ->]; simpl; lia|].
    constructor; [split; [done | by left]|].
    destruct Hrest as [->| ->]; [constructor|].
    apply Forall_singleton. by apply Hsecondary.
  - exists [duckduckgo_request query]. rewrite _duckduckgo_search_eq. simpl.
    split_and!; [done | lia | lia |]. apply Forall_singleton. by apply Hsecondary.
Qed.

(** X9: the links of the two synthetic records are the fixed prefix
    followed by the query with every space turned into '+' and every other
    code point left as it is (nothing is percent-encoded): the link has no
    space, and its length is that of the prefix plus that of the query. *)
Theorem synthetic_links query :
  ∃ fallback_link placeholder_link,
    fallback_result query !! "link" = Some (VStr fallback_link) ∧
    placeholder_result query !! "link" = Some (VStr placeholder_link) ∧
    (32%N ∉ fallback_link) ∧ (32%N ∉ placeholder_link) ∧
    length fallback_link = (32 + length query)%nat ∧
    length placeholder_link = (30 + length query)%nat ∧
    (∀ i c, query !! i = Some c →
       fallback_link !! (32 + i)%nat = Some (if N.eqb c 32 then 43%N else c) ∧
       placeholder_link !! (30 + i)%nat = Some (if N.eqb c 32 then 43%N else c)).
Proof.
  exists (lit "https://www.google.com/search?q=" ++ replace 32 43 query),
         (lit "https://api.duckduckgo.com/?q=" ++ replace 32 43 query).
  assert (32%N ∉ replace 32 43 query) as Hq by by apply replace_absent.
  split_and!; try done.
  - intros [Hin|Hin]%elem_of_app; [|done].
    revert Hin. by apply absent_by_test.
  - intros [Hin|Hin]%elem_of_app; [|done].
    revert Hin. by apply absent_by_test.
  - by rewrite length_app, replace_length.
  - by rewrite length_app, replace_length.
  - intros i c Hc. split.
    + rewrite lookup_app_r by (change (length (lit _)) with 32%nat; lia).
      change (length (lit "https://www.google.com/search?q=")) with 32%nat.
      replace (32 + i - 32)%nat with i by lia. by apply replace_lookup.
    + rewrite lookup_app_r by (change (length (lit _)) with 30%nat; lia).
      change (length (lit "https://api.duckduckgo.com/?q=")) with 30%nat.
      replace (30 + i - 30)%nat with i by lia. by apply replace_lookup.
Qed.

(** ** Further properties of the synthesiser *)

Section MoreSynthesisFacts.
Variable str_of : value → text.

Lemma bullet_missing (r : record) :
  r !! "title" = None ∨ r !! "snippet" = None →
  bullet str_of r = inl (KeyError "title") ∨
  bullet str_of r = inl (KeyError "snippet").
Proof.
  unfold bullet, getitem. intros [H|H].
  - left. by rewrite H.
  - destruct (r !! "title"); [right; by rewrite H | by left].
Qed.

(** The comprehension of line 134 raises as soon as one record lacks a
    title or a snippet. *)
Lemma bullets_missing (rs : list record) :
  Exists (λ r, r !! "title" = None ∨ r !! "snippet" = None) rs →
  mapM (bullet str_of) rs = inl (KeyError "title") ∨
  mapM (bullet str_of) rs = inl (KeyError "snippet").
Proof.
  induction rs as [|r rest IH]; [by intros ?%Exists_nil|].
  intros Hex. simpl.
  destruct (bullet str_of r) as [e|line] eqn:Hline; simpl.
  - unfold bullet, getitem in Hline.
    destruct (r !! "title"); simpl in Hline;
      [destruct (r !! "snippet"); simpl in Hline|]; simplify_eq; auto.
  - apply Exists_cons in Hex as [Hr|Hrest].
    + destruct (bullet_missing r Hr); congruence.
    + by destruct (IH Hrest) as [-> | ->]; auto.
Qed.

(** The loop of lines 114-117 raises a [KeyError] as soon as one record
    lacks one of the three keys. *)
Lemma context_loop_missing (rs : list record) i context :
  Exists (λ r, ¬ readable r) rs →
  ∃ k, context_loop str_of i rs context = inl (KeyError k).
Proof.
  intros Hex. revert i context.
  induction Hex as [r rest Hr|r rest _ IH]; intros i context; simpl.
  - unfold getitem.
    destruct (r !! "title") eqn:Ht; [|by eexists]. simpl.
    destruct (r !! "snippet") eqn:Hs; [|by eexists]. simpl.
    destruct (r !! "link") eqn:Hl; [|by eexists].
    destruct Hr. unfold readable. rewrite Ht, Hs, Hl. by split_and!.
  - unfold getitem.
    destruct (r !! "title"); [|by eexists]. simpl.
    destruct (r !! "snippet"); [|by eexists]. simpl.
    destruct (r !! "link"); [|by eexists]. simpl. apply IH.
Qed.

(** On records that have a title and a snippet the loop can only miss a
    link. *)
Lemma context_loop_missing_link (rs : list record) i context :
  Forall (λ r, is_Some (r !! "title") ∧ is_Some (r !! "snippet")) rs →
  Exists (λ r, r !! "link" = None) rs →
  context_loop str_of i rs context = inl (KeyError "link").
Proof.
  intros Hall Hex. revert i context.
  induction Hex as [r rest Hr|r rest _ IH]; intros i context; simpl;
    apply Forall_cons in Hall as [[[t Ht] [s Hs]] Hall];
    unfold getitem; rewrite Ht, Hs; simpl.
  - by rewrite Hr.
  - destruct (r !! "link"); [|done]. simpl. by apply IH.
Qed.

End MoreSynthesisFacts.

(** X10: on records that have title, snippet and link, whatever text the
    model returns for the prompt is the answer, unchanged; an empty
    completion gives an empty answer, so [generate_response] promises a
    non-empty text only on its degraded path. *)
Theorem completion_returned_verbatim str_of me query (rs : list record) :
  Forall readable rs →
  ∃ context,
    context_loop str_of 1 rs (lit "Here are the search results: " ++ [LF; LF])
      = inr context ∧
    ∀ completion,
      model me (prompt_of query context) = inr completion →
      generate_response str_of me query rs = inr completion.
Proof.
  intros Hread.
  destruct (context_loop_inr str_of rs 1
              (lit "Here are the search results: " ++ [LF; LF]) Hread)
    as (context & Hctx).
  exists context. split; [exact Hctx|].
  intros completion Hmodel. unfold generate_response, generate_try.
  rewrite Hctx. simpl. by rewrite Hmodel.
Qed.

Lemma completion_returned_verbatim_witness :
  generate_response str_plain agent_up france [paris_record; texas_record]
  = inr (lit "Paris is the capital of France.").
Proof.
  assert (Forall readable [paris_record; texas_record]) as Hread.
  { repeat constructor; eexists; vm_compute; reflexivity. }
  destruct (completion_returned_verbatim str_plain agent_up france
              [paris_record; texas_record] Hread) as (context & _ & Hanswer).
  apply Hanswer. reflexivity.
Defined.

(** X11: if some input record lacks 'title' or 'snippet',
    [generate_response] does not return: the [try] block raises a
    [KeyError], and the handler, which indexes the same two keys, raises a
    [KeyError] for 'title' or 'snippet' in its turn, whatever the model
    would have answered. *)
Theorem missing_title_or_snippet_raises str_of me query (rs : list record) :
  Exists (λ r, r !! "title" = None ∨ r !! "snippet" = None) rs →
  (∃ k, generate_try str_of me query rs = inl (KeyError k)) ∧
  (generate_response str_of me query rs = inl (KeyError "title") ∨
   generate_response str_of me query rs = inl (KeyError "snippet")).
Proof.
  intros Hex.
  assert (∃ k, generate_try str_of me query rs = inl (KeyError k)) as [k Hk].
  { destruct (context_loop_missing str_of rs 1
                (lit "Here are the search results: " ++ [LF; LF])) as [k Hk].
    - eapply Exists_impl; [exact Hex|]. intros r Hr (Ht & Hs & _).
      destruct Hr as [Hr|Hr]; rewrite Hr in *; by eapply is_Some_None.
    - exists k. unfold generate_try. by rewrite Hk. }
  split; [by exists k|].
  unfold generate_response, degraded_response. rewrite Hk.
  by destruct (bullets_missing str_of rs Hex) as [-> | ->]; [left | right].
Qed.

Lemma missing_title_or_snippet_raises_witness :
  generate_response str_plain agent_up france [paris_record; record_without_title]
  = inl (KeyError "title").
Proof.
  destruct (missing_title_or_snippet_raises str_plain agent_up france
              [paris_record; record_without_title]) as (_ & [H|H]).
  - right. left. left. vm_compute. reflexivity.
  - exact H.
  - exfalso. revert H. vm_compute. discriminate.
Defined.

(** X12: if every input record has a title and a snippet but some record
    lacks 'link', the model is not consulted: the [try] block raises
    [KeyError('link')] while it builds the context, and the answer is the
    degraded listing with that error, the same for every model. *)
Theorem missing_link_skips_model str_of me query (rs : list record) :
  Forall (λ r, is_Some (r !! "title") ∧ is_Some (r !! "snippet")) rs →
  Exists (λ r, r !! "link" = None) rs →
  generate_try str_of me query rs = inl (KeyError "link") ∧
  ∃ lines,
    mapM (bullet str_of) rs = inr lines ∧
    ∀ other,
      generate_response str_of other query rs
      = inr ([0x274C%N] ++ lit " Error generating response: 'link'" ++
             [LF; LF] ++ lit "Here are the raw search results:" ++ [LF] ++
             join [LF] lines).
Proof.
  intros Hkeys Hex.
  assert (∀ other, generate_try str_of other query rs = inl (KeyError "link"))
    as Htry.
  { intros other. unfold generate_try.
    by rewrite (context_loop_missing_link str_of rs 1 _ Hkeys Hex). }
  split; [apply Htry|].
  destruct (bullets_inr str_of rs Hkeys) as (lines & Hlines & _).
  exists lines. split; [exact Hlines|]. intros other.
  unfold generate_response, degraded_response. rewrite Htry, Hlines.
  cbv [mbind sum_bind mret sum_ret]. reflexivity.
Qed.

Lemma missing_link_skips_model_witness :
  generate_try str_plain agent_up france [record_without_link]
  = inl (KeyError "link").
Proof.
  apply (missing_link_skips_model str_plain agent_up france [record_without_link]).
  - repeat constructor; eexists; vm_compute; reflexivity.
  - left. vm_compute. reflexivity.
Defined.

(** ** The facade and the loop *)

Section ShellFacts.
Variable net : list request → request → option response.
Variable str_of : value → text.
Variable now : world → text.
Variable strip : text → text.
Variable lower : text → text.









End ShellFacts.




(** A line with a surrogate is skipped and the next one is answered. *)
Example loop_skips_unprintable :
  let run := main_loop net_paris str_plain clock_noon ascii_strip ascii_lower
               [query_surrogate; lit " capital of France"; lit "q"]
               (World agent_up []) in
  bundle_query <$> run.1.1 = [france] ∧
  sent run.2 = [duckduckgo_request france].
Proof. intros run. subst run. split; vm_compute; reflexivity. Qed.

(** X15: nothing after a quit line is read.  Whatever follows the first
    line that is a quit word, the loop returns the same bundles, stops with
    the goodbye and leaves the same world. *)
Theorem loop_stops_at_quit net str_of now strip lower before line after w :
  quit_word lower (strip line) = true →
  main_loop net str_of now strip lower (before ++ line :: after) w
    = main_loop net str_of now strip lower (before ++ [line]) w ∧
  (main_loop net str_of now strip lower (before ++ line :: after) w).1.2 = Goodbye.
Proof.
  intros Hquit. revert w.
  induction before as [|l rest IH]; intros w; simpl.
  - by rewrite Hquit.
  - destruct (quit_word lower (strip l)); [done|].
    destruct (negb _); [apply IH|].
    destruct (search_and_answer _ _ _ _ _ _) as [[e|result] w1]; [apply IH|].
    destruct (IH w1) as [-> Hhow].
    destruct (main_loop _ _ _ _ _ (rest ++ [line]) w1) as [[shown how] w2].
    done.
Qed.

Lemma loop_stops_at_quit_witness :
  (main_loop net_paris str_plain clock_noon ascii_strip ascii_lower
     [lit "  capital of France "; lit ""; lit " QUIT"; lit "unread"]
     (World agent_up [])).1.2 = Goodbye.
Proof.
  apply (loop_stops_at_quit net_paris str_plain clock_noon ascii_strip ascii_lower
           [lit "  capital of France "; lit ""] (lit " QUIT") [lit "unread"]
           (World agent_up [])).
  vm_compute. reflexivity.
Defined.

(** The loop on three lines and a quit word: one query is answered, with
    the abstract record first. *)
Example loop_paris :
  let run := main_loop net_paris str_plain clock_noon ascii_strip ascii_lower
               [lit "  capital of France "; lit "   "; lit "Exit"; lit "unread"]
               (World agent_up []) in
  bundle_query <$> run.1.1 = [france] ∧
  bundle_search_results <$> run.1.1 = [[paris_record; texas_record; hilton_record]] ∧
  bundle_ai_response <$> run.1.1 = [lit "Paris is the capital of France."] ∧
  run.1.2 = Goodbye ∧
  sent run.2 = [duckduckgo_request france].
Proof. intros run. subst run. split_and!; vm_compute; reflexivity. Qed.

Lemma abstract_result_dict query d s :
  dict_get d (lit "Abstract") = Some (VStr s) →
  abstract_result query (VDict d)
  = inr {[ "title" := default (VStr query) (dict_get d (lit "Heading"));
           "snippet" := VStr (truncated 200 s);
           "link" := default (VStr []) (dict_get d (lit "AbstractURL")) ]}.
Proof.
  intros Habs. unfold abstract_result, py_get. rewrite Habs.
  change (default (VStr []) (Some (VStr s))) with (VStr s).
  cbv [mbind sum_bind mret sum_ret py_slice_to py_add_str].
  change (slice_to 200 s) with (slice_to (Z.of_nat 200) s).
  by rewrite slice_to_nonneg, <- truncated_take.
Qed.

(** X16: when the secondary provider's body has a non-empty text
    'Abstract' and the run completes, the abstract record comes first: its
    title is the body's 'Heading' when that key is present (whatever its
    value) and the query otherwise, its snippet the truncated abstract, its
    link the 'AbstractURL' or the empty text, and it has no other key;
    every record after it is a related-topic record tagged 'DuckDuckGo'. *)
Theorem abstract_record_first net query num_results w d s rs :
  decoded (net (sent w) (duckduckgo_request query)) = inr (VDict d) →
  dict_get d (lit "Abstract") = Some (VStr s) →
  s ≠ [] →
  (_duckduckgo_try net query num_results w).1 = inr rs →
  ∃ r rest,
    rs = r :: rest ∧
    r !! "title" = Some (default (VStr query) (dict_get d (lit "Heading"))) ∧
    r !! "snippet" = Some (VStr (truncated 200 s)) ∧
    r !! "link" = Some (default (VStr []) (dict_get d (lit "AbstractURL"))) ∧
    dom r = {[ "title"; "snippet"; "link" ]} ∧
    Forall (λ r', r' !! "source" = Some (VStr (lit "DuckDuckGo")) ∧
                  ∃ topic, topic_result topic = inr r') rest.
Proof.
  intros Hdata Habs Hs Hrun. rewrite _duckduckgo_try_eq in Hrun. simpl in Hrun.
  rewrite Hdata in Hrun. simpl in Hrun.
  apply secondary_results_anatomy in Hrun
    as (abstract & all & lead & found & Ha & _ & Hlead & Hfound & ->).
  simpl in Ha. rewrite Habs in Ha. simpl in Ha. injection Ha as <-.
  assert (truthy (VStr s) = true) as Htruthy.
  { simpl. by rewrite bool_decide_eq_false_2. }
  rewrite Htruthy in Hlead. destruct Hlead as (r & Hr & ->).
  exists r, found. split; [done|].
  rewrite (abstract_result_dict query d s Habs) in Hr. injection Hr as <-.
  split_and!; try done.
  clear -Hfound. induction Hfound as [|topic r' ? ? Hr' _ IH]; constructor; [|done].
  split; [|by eauto].
  by apply topic_result_inr in Hr' as (? & ? & _ & ->).
Qed.

Lemma abstract_record_first_witness :
  ∃ r rest, [paris_record; texas_record] = r :: rest ∧
            r !! "title" = Some (VStr (lit "Paris")).
Proof.
  assert ((_duckduckgo_try net_paris france 2 (World agent_keyless [])).1
          = inr [paris_record; texas_record]) as Hrun by (vm_compute; reflexivity).
  destruct (abstract_record_first net_paris france 2 (World agent_keyless [])
    [(lit "Abstract", VStr (lit "Paris is the capital of France."));
         (lit "Heading", VStr (lit "Paris"));
         (lit "AbstractURL", VStr (lit "https://en.wikipedia.org/wiki/Paris"));
         (lit "RelatedTopics",
          VList [VDict [(lit "Text", VStr (lit "Paris, Texas"));
                        (lit "FirstURL", VStr (lit "https://duckduckgo.com/Paris_Texas"))];
                 VDict [(lit "Name", VStr (lit "Places"))];
                 VDict [(lit "Text", VStr (lit "Paris Hilton"))]])]
    (lit "Paris is the capital of France.") _ eq_refl eq_refl ltac:(discriminate) Hrun)
    as (r & rest & Hrs & Htitle & _).
  exists r, rest. split; [exact Hrs | exact Htitle].
Defined.
